(** * Splitter: expense normalisation, submission encoding and balances

    A shallow embedding of the three pieces of logic of [src/App.tsx]:
    the map callback of [fetchUserData] that builds [formattedExpenses],
    the payload construction of [handleAddExpense], and the [balances]
    memo.  JavaScript numbers are IEEE 754 binary64 values, so they are
    embedded as Rocq's primitive floats; [bals], the object the balance
    loop mutates, is a finite map from ids to numbers; an expense's
    [paidBy] object is the list of its entries as [Object.entries]
    enumerates them.  An assignment to the key ["__proto__"] of such an
    object stores nothing, and is modelled so.  Values are typed as the
    source types them: a balance is a number.  Reading a key that the
    object does not own but inherits from [Object.prototype]
    (["constructor"], ["toString"], ...) returns that member, which is
    no number; the balance loop is modelled for ids that name no such
    member, and the statements that depend on the value read say so.
    The order in which [Object.entries(bals)] lists the result is not
    modelled: the output is the list of the entries of the final map,
    and every statement about it is about membership or holds up to
    permutation. *)

From Stdlib Require Import Floats.
From stdpp Require Import gmap strings list fin_maps.

Local Open Scope float_scope.
Local Set Warnings "-clear-no-such-hyp".

(** ** JavaScript numbers *)

Module JS.

(** Truthiness of a number: [0], [-0] and [NaN] are falsy. *)
Definition truthy (x : float) : bool :=
  negb (PrimFloat.is_zero x || PrimFloat.is_nan x).

(** [x || 0] where [x] is a property that may be missing. *)
Definition or_zero (x : option float) : float :=
  match x with
  | Some v => if truthy v then v else 0
  | None => 0
  end.

(** [!b] for an optional boolean property. *)
Definition falsy_flag (b : option bool) : bool :=
  match b with
  | Some true => false
  | _ => true
  end.

(** The number an array length converts to. *)
Definition of_length (n : nat) : float :=
  PrimFloat.of_uint63 (Uint63.of_Z (Z.of_nat n)).

(** The literal [0.01]: the binary64 value nearest to one hundredth. *)
Definition cent : float := 0x1.47ae147ae147bp-7.

(** The keys every plain object inherits from [Object.prototype]. *)
Definition prototypeKeys : list string :=
  [ "constructor"; "hasOwnProperty"; "isPrototypeOf"; "propertyIsEnumerable";
    "toLocaleString"; "toString"; "valueOf"; "__proto__";
    "__defineGetter__"; "__defineSetter__"; "__lookupGetter__"; "__lookupSetter__" ].

Definition inherited (key : string) : bool := bool_decide (key ∈ prototypeKeys).

(** [obj[key] = v] for a number [v] on an object used as a map: the
    setter of ["__proto__"] ignores a value that is no object. *)
Definition assign (key : string) (v : float) (obj : gmap string float)
    : gmap string float :=
  if bool_decide (key = "__proto__") then obj else <[key := v]> obj.

End JS.

(** ** Data model ([src/types.ts]) *)

Record Profile := {
  p_id : string;
  p_email : string;
  p_name : string;
  p_avatar : option string
}.

Record Friend := {
  f_id : string;
  f_email : string;
  f_name : string;
  f_avatar : option string;
  f_isMe : option bool
}.

Inductive Category := food | transport | entertainment | other.

Record Expense := {
  e_id : string;
  e_description : string;
  e_amount : float;
  e_paidBy : list (string * float);
  e_splitBetween : list string;
  e_date : string;
  e_category : Category;
  e_createdBy : option string
}.

Record Balance := {
  friendId : string;
  amount : float
}.

(** ** Stored records *)

(** The [paid_by] column: a bare id, a mapping, [null], missing, or
    some other primitive (a number or a boolean). *)
Inductive PaidByField :=
  | PaidByString (s : string)
  | PaidByObject (m : list (string * float))
  | PaidByNull
  | PaidByAbsent
  | PaidByPrimitive.

(** The [split_between] column. *)
Inductive SplitField :=
  | SplitArray (ids : list string)
  | SplitNull
  | SplitAbsent.

Record StoredExpense := {
  s_id : string;
  s_description : string;
  s_amount : float;
  s_paid_by : PaidByField;
  s_split_between : SplitField;
  s_date : string;
  s_category : Category;
  s_created_by : option string
}.

(** ** Objects as lists of entries *)

(** An own key written by assignment: an existing key keeps its place,
    a new key goes last. *)
Fixpoint setOwn {A} (m : list (string * A)) (key : string) (v : A)
    : list (string * A) :=
  match m with
  | [] => [(key, v)]
  | (k, x) :: rest =>
      if bool_decide (k = key) then (k, v) :: rest else (k, x) :: setOwn rest key v
  end.

(** [obj[key] = v] for a number or a string [v]: the setter of
    ["__proto__"] ignores it, any other key becomes or stays an own
    key. *)
Definition setProp {A} (m : list (string * A)) (key : string) (v : A)
    : list (string * A) :=
  if bool_decide (key = "__proto__") then m else setOwn m key v.

(** ** Expense Normalizer: the callback of [formattedExpenses] *)

Definition paidByMap (e : StoredExpense) : list (string * float) :=
  match s_paid_by e with
  | PaidByString s => setProp [] s (s_amount e)
  | PaidByObject m => m
  | PaidByNull | PaidByAbsent | PaidByPrimitive => []
  end.

(** [e.split_between || []]: an array is truthy even when empty. *)
Definition splitOrEmpty (f : SplitField) : list string :=
  match f with
  | SplitArray ids => ids
  | SplitNull | SplitAbsent => []
  end.

Definition formatExpense (e : StoredExpense) : Expense :=
  {| e_id := s_id e;
     e_description := s_description e;
     e_amount := s_amount e;
     e_paidBy := paidByMap e;
     e_splitBetween := splitOrEmpty (s_split_between e);
     e_date := s_date e;
     e_category := s_category e;
     e_createdBy := s_created_by e |}.

(** [(exps || []).map(...)]. *)
Definition formattedExpenses (exps : option (list StoredExpense)) : list Expense :=
  formatExpense <$> default [] exps.

(** ** Submission Encoder: the payload of [handleAddExpense] *)

Record Draft := {
  d_description : string;
  d_amount : float;
  d_paidBy : list (string * float);
  d_splitBetween : list string;
  d_category : Category;
  d_createdBy : option string
}.

Record Payload := {
  description : string;
  pl_amount : float;
  paid_by : PaidByField;
  split_between : list string;
  category : Category;
  date : string;
  created_by : string
}.

(** The own entry of [key] among the entries of an object.  [obj[key]]
    is that entry when there is one; when there is none it is
    [undefined], or the inherited member for a key of
    [JS.prototypeKeys]. *)
Fixpoint prop (m : list (string * float)) (key : string) : option float :=
  match m with
  | [] => None
  | (k, v) :: rest => if bool_decide (k = key) then Some v else prop rest key
  end.

(** [Math.abs(paidBy[id] - amount) < 0.01]; without an own entry the
    value read is [undefined] or an inherited member, the difference
    is [NaN] either way and the test fails. *)
Definition paidInFull (m : list (string * float)) (id : string) (total : float) : bool :=
  match prop m id with
  | Some v => PrimFloat.ltb (PrimFloat.abs (v - total)) JS.cent
  | None => false
  end.

Definition paidByPayload (d : Draft) : PaidByField :=
  let payerIds := (d_paidBy d).*1 in
  match payerIds with
  | [singlePayerId] =>
      if paidInFull (d_paidBy d) singlePayerId (d_amount d)
      then PaidByString singlePayerId
      else PaidByObject (d_paidBy d)
  | _ => PaidByObject (d_paidBy d)
  end.

(** [now] stands for [new Date().toISOString()]; without a profile the
    handler returns before building anything. *)
Definition handleAddExpense (userProfile : option Profile) (now : string)
    (newExpenseData : Draft) : option Payload :=
  match userProfile with
  | None => None
  | Some u =>
      Some {| description := d_description newExpenseData;
              pl_amount := d_amount newExpenseData;
              paid_by := paidByPayload newExpenseData;
              split_between := d_splitBetween newExpenseData;
              category := d_category newExpenseData;
              date := now;
              created_by := p_id u |}
  end.

(** ** Balance Engine: the [balances] memo *)

Section Engine.

(** [userProfile.id] *)
Variable me : string.

(** [friends.forEach(f => { if (!f.isMe) bals[f.id] = 0; })] *)
Definition initialize (friends : list Friend) : gmap string float :=
  foldl (λ bals f, if JS.falsy_flag (f_isMe f) then JS.assign (f_id f) 0 bals else bals)
        ∅ friends.

Definition debtChunk (costPerPerson paidAmount total : float) : float :=
  let weight := paidAmount / total in
  costPerPerson * weight.

(** The body of [payers.forEach].  The balance read is the own entry
    of the id; an id that names a member of [Object.prototype] and has
    no entry yet is outside the model (see the head of the file). *)
Definition accumulate (total costPerPerson : float) (consumerId : string)
    (bals : gmap string float) (payer : string * float) : gmap string float :=
  let '(payerId, paidAmount) := payer in
  let chunk := debtChunk costPerPerson paidAmount total in
  let bals1 :=
    if bool_decide (payerId = me) && bool_decide (consumerId ≠ me)
    then JS.assign consumerId (JS.or_zero (bals !! consumerId) + chunk) bals
    else bals in
  if bool_decide (payerId ≠ me) && bool_decide (consumerId = me)
  then JS.assign payerId (JS.or_zero (bals1 !! payerId) - chunk) bals1
  else bals1.

(** The body of [consumers.forEach]. *)
Definition forConsumer (total costPerPerson : float) (payers : list (string * float))
    (bals : gmap string float) (consumerId : string) : gmap string float :=
  foldl (accumulate total costPerPerson consumerId) bals payers.

Definition costPerPerson (exp : Expense) : float :=
  e_amount exp / JS.of_length (length (e_splitBetween exp)).

(** The body of [expenses.forEach]. *)
Definition forExpense (bals : gmap string float) (exp : Expense) : gmap string float :=
  foldl (forConsumer (e_amount exp) (costPerPerson exp) (e_paidBy exp))
        bals (e_splitBetween exp).

Definition accumulateAll (bals : gmap string float) (expenses : list Expense)
    : gmap string float :=
  foldl forExpense bals expenses.

End Engine.

Definition toBalance (entry : string * float) : Balance :=
  {| friendId := entry.1; amount := entry.2 |}.

Definition balances (friends : list Friend) (userProfile : option Profile)
    (expenses : list Expense) : list Balance :=
  let bals := initialize friends in
  match userProfile with
  | None => []
  | Some u => toBalance <$> map_to_list (accumulateAll (p_id u) bals expenses)
  end.

(** ** The balance of one friend *)

(** What one (payer, consumer) pair does to a balance. *)
Inductive Adjustment :=
  | Increase (chunk : float)
  | Decrease (chunk : float).

(** The balance read the way the loop reads it, with a missing or
    falsy entry counting as [0], then moved by the chunk. *)
Definition adjust (b : option float) (a : Adjustment) : option float :=
  match a with
  | Increase chunk => Some (JS.or_zero b + chunk)
  | Decrease chunk => Some (JS.or_zero b - chunk)
  end.

Section PerFriend.

Variable me : string.

(** The accumulation rule in the words of the specification: the
    adjustments one expense makes to the balance of [id], pair by pair,
    each of size [(amount / |splitBetween|) * (paidAmount / amount)]. *)
Definition pairAdjustments (id : string) (exp : Expense) (consumerId : string)
    (payer : string * float) : list Adjustment :=
  let chunk :=
    (e_amount exp / JS.of_length (length (e_splitBetween exp)))
    * (payer.2 / e_amount exp) in
  (if bool_decide (payer.1 = me ∧ consumerId ≠ me ∧ consumerId = id)
   then [Increase chunk] else [])
  ++ (if bool_decide (consumerId = me ∧ payer.1 ≠ me ∧ payer.1 = id)
      then [Decrease chunk] else []).

Definition expenseAdjustments (id : string) (exp : Expense) : list Adjustment :=
  consumerId ← e_splitBetween exp;
  payer ← e_paidBy exp;
  pairAdjustments id exp consumerId payer.

Definition adjustments (id : string) (expenses : list Expense) : list Adjustment :=
  exp ← expenses; expenseAdjustments id exp.

(** The sum of a friend's adjustments, taken in the order of the loops. *)
Definition sumAdjustments (start : option float) (adjs : list Adjustment) : option float :=
  foldl adjust start adjs.

(** The two ways an expense list reaches a friend's balance. *)
Definition consumesFromMe (id : string) (expenses : list Expense) : Prop :=
  ∃ exp, exp ∈ expenses ∧ id ∈ e_splitBetween exp ∧ me ∈ (e_paidBy exp).*1.

Definition paysForMe (id : string) (expenses : list Expense) : Prop :=
  ∃ exp, exp ∈ expenses ∧ id ∈ (e_paidBy exp).*1 ∧ me ∈ e_splitBetween exp.

End PerFriend.

(** The balance as the specification words it: the sum of the
    adjustments, increases added and decreases subtracted. *)
Definition plainSum (adjs : list Adjustment) : float :=
  foldl (λ acc a, match a with
                  | Increase chunk => acc + chunk
                  | Decrease chunk => acc - chunk
                  end) 0 adjs.

(** An id is a non-self friend when some entry of the collection
    carries it without a truthy [isMe]. *)
Definition nonSelf (friends : list Friend) (id : string) : Prop :=
  ∃ f, f ∈ friends ∧ f_id f = id ∧ JS.falsy_flag (f_isMe f) = true.

(** ** Sample data *)

Definition profile (id : string) : Profile :=
  {| p_id := id; p_email := id; p_name := id; p_avatar := None |}.

Definition friend (id : string) (isMe : bool) : Friend :=
  {| f_id := id; f_email := id; f_name := id; f_avatar := None; f_isMe := Some isMe |}.

Definition expense (total : float) (paidBy : list (string * float))
    (splitBetween : list string) : Expense :=
  {| e_id := "e"; e_description := "d"; e_amount := total; e_paidBy := paidBy;
     e_splitBetween := splitBetween; e_date := "t"; e_category := other;
     e_createdBy := None |}.

Definition flagless (id : string) : Friend :=
  {| f_id := id; f_email := id; f_name := id; f_avatar := None; f_isMe := None |}.

Definition stored (total : float) (paidBy : PaidByField) (split : SplitField)
    : StoredExpense :=
  {| s_id := "e"; s_description := "d"; s_amount := total; s_paid_by := paidBy;
     s_split_between := split; s_date := "t"; s_category := other;
     s_created_by := None |}.

Definition draft (total : float) (paidBy : list (string * float))
    (splitBetween : list string) : Draft :=
  {| d_description := "d"; d_amount := total; d_paidBy := paidBy;
     d_splitBetween := splitBetween; d_category := other; d_createdBy := None |}.

(** ** The Friend collection: [fetchUserData] ([src/App.tsx]) *)

Inductive Status := pending | accepted.

(** A row of [friend_requests] with its two joined profiles; a join
    that found no row is [null]. *)
Record FriendRequest := {
  fr_id : string;
  sender_id : string;
  receiver_id : string;
  status : Status;
  sender : option Profile;
  receiver : option Profile
}.

(** [{...profile, isMe}] *)
Definition asFriend (p : Profile) (isMe : bool) : Friend :=
  {| f_id := p_id p; f_email := p_email p; f_name := p_name p;
     f_avatar := p_avatar p; f_isMe := Some isMe |}.

(** [friends.find(f => f.id === id)] *)
Definition findFriend (friends : list Friend) (id : string) : option Friend :=
  find (λ f, bool_decide (f_id f = id)) friends.

(** [req.sender_id === uid ? req.receiver : req.sender] *)
Definition counterpart (uid : string) (req : FriendRequest) : option Profile :=
  if bool_decide (sender_id req = uid) then receiver req else sender req.

(** The callback of [reqs?.forEach] on the two arrays it pushes to.
    [confirmed] holds at least the user's own entry here, so the
    callback of [find] runs and reads [friend.id]; on a [null] join
    that throws, which is [None]. *)
Definition forRequest (uid : string) (acc : list Friend * list FriendRequest)
    (req : FriendRequest) : option (list Friend * list FriendRequest) :=
  let '(confirmed, pendingList) := acc in
  match status req with
  | accepted =>
      match counterpart uid req with
      | None => None
      | Some friend =>
          match findFriend confirmed (p_id friend) with
          | Some _ => Some (confirmed, pendingList)
          | None => Some (confirmed ++ [asFriend friend false], pendingList)
          end
      end
  | pending =>
      if bool_decide (receiver_id req = uid)
      then Some (confirmed, pendingList ++ [req])
      else Some (confirmed, pendingList)
  end.

Fixpoint forEachRequest (uid : string) (acc : list Friend * list FriendRequest)
    (reqs : list FriendRequest) : option (list Friend * list FriendRequest) :=
  match reqs with
  | [] => Some acc
  | req :: rest =>
      match forRequest uid acc req with
      | Some acc' => forEachRequest uid acc' rest
      | None => None
      end
  end.

(** The requests the loop keeps as pending: those sent to [uid]. *)
Definition incoming (uid : string) (req : FriendRequest) : bool :=
  match status req with
  | pending => bool_decide (receiver_id req = uid)
  | accepted => false
  end.

(** The values handed to [setFriends] and [setRequests] when the
    profile query returned the row [profile]; [None] when the block
    threw before reaching them.  (Without a profile [confirmed] starts
    empty; that branch is not modelled.) *)
Definition fetchFriends (uid : string) (profile : Profile)
    (reqs : option (list FriendRequest)) : option (list Friend * list FriendRequest) :=
  let confirmed := [asFriend profile true] in
  forEachRequest uid (confirmed, []) (default [] reqs).

(** [prev.map(f => f.id === updatedProfile.id ? {...f, ...updatedProfile} : f)]:
    the spread replaces the keys the profile has and keeps the others,
    so [isMe] stays, and so does the avatar when the profile has none. *)
Definition handleProfileUpdate (updatedProfile : Profile) (prev : list Friend)
    : list Friend :=
  (λ f, if bool_decide (f_id f = p_id updatedProfile)
        then {| f_id := p_id updatedProfile; f_email := p_email updatedProfile;
                f_name := p_name updatedProfile;
                f_avatar := match p_avatar updatedProfile with
                            | Some a => Some a
                            | None => f_avatar f
                            end;
                f_isMe := f_isMe f |}
        else f) <$> prev.

(** ** What the screens derive from the balances ([src/App.tsx]) *)

(** [balances.reduce((acc, curr) => acc + curr.amount, 0)] *)
Definition totalBalance (bs : list Balance) : float :=
  foldl (λ acc curr, acc + amount curr) 0 bs.

(** [balances.find(b => b.friendId === friend.id)?.amount || 0] *)
Definition friendBal (bs : list Balance) (id : string) : float :=
  JS.or_zero (amount <$> find (λ b, bool_decide (friendId b = id)) bs).

(** The net change shown on a transaction row.  [expense.paidBy[myId]]
    is the own entry when there is one; otherwise, for a key inherited
    from [Object.prototype], it is that member, which is truthy and
    turns the difference into [NaN]. *)
Definition netChange (myId : string) (exp : Expense) : float :=
  let cost := e_amount exp / JS.of_length (length (e_splitBetween exp)) in
  let iConsumed := if bool_decide (myId ∈ e_splitBetween exp) then cost else 0 in
  match prop (e_paidBy exp) myId with
  | Some v => JS.or_zero (Some v) - iConsumed
  | None => if JS.inherited myId then nan else 0 - iConsumed
  end.

(** ** The expense form ([src/components/AddExpenseModal.tsx]) *)

Record FormState := {
  fs_amount : string;
  fs_description : string;
  fs_isMultiPayer : bool;
  fs_singlePayerId : string;
  fs_multiPayers : list (string * string);
  fs_splitBetween : list string
}.

(** The effect that resets the form when the sheet opens. *)
Definition openForm (friends : list Friend) (currentUser : Friend) : FormState :=
  {| fs_amount := ""; fs_description := ""; fs_isMultiPayer := false;
     fs_singlePayerId := f_id currentUser; fs_multiPayers := [];
     fs_splitBetween := f_id <$> friends |}.

Definition toggleSplit (id : string) (prev : list string) : list string :=
  if bool_decide (id ∈ prev) then filter (λ fid, fid ≠ id) prev else prev ++ [id].

(** [friends.some(f => f.id === id)] *)
Definition isFriend (friends : list Friend) (id : string) : bool :=
  existsb (λ f, bool_decide (f_id f = id)) friends.

(** A payer of the extraction result that carries both properties of
    the response schema. *)
Record MagicPayer := {
  mp_friendId : string;
  mp_amount : float
}.

(** A payer as [JSON.parse] returns it: the response schema requires
    neither property, so each may be missing. *)
Record ParsedPayer := {
  pp_friendId : option string;
  pp_amount : option float
}.

(** What the extraction service returned, after [JSON.parse]; every
    field may be missing. *)

Record MagicResult := {
  mr_totalAmount : option float;
  mr_description : option string;
  mr_involvedFriendIds : option (list string);
  mr_payers : option (list MagicPayer)
}.

(** The state of the form after step 3: the run goes on to step 4, or
    it has thrown and leaves through [catch] with the updates made
    before the throw. *)
Inductive Run :=
  | Completed (st : FormState)
  | Thrown (st : FormState).

Section Form.

(** The two conversions of the language the form relies on. *)
Variable parseFloat : string → float.
Variable numberToString : float → string.

(** The payer mapping of multi-payer mode: the entries of [multiPayers]
    whose text parses to a number above zero. *)
Definition multiPaidBy (multiPayers : list (string * string)) : list (string * float) :=
  foldl (λ paidByPayload entry,
           let val := parseFloat entry.2 in
           if PrimFloat.ltb 0 val then setProp paidByPayload entry.1 val
           else paidByPayload)
        [] multiPayers.

(** The draft handed to [onAdd], or [None] when the handler returns
    early.  The check sum of the multi-payer branch has no effect. *)
Definition handleSubmit (st : FormState) : option Draft :=
  let finalAmount := parseFloat (fs_amount st) in
  if negb (JS.truthy finalAmount)
     || bool_decide (fs_description st = "")
     || bool_decide (length (fs_splitBetween st) = 0%nat)
  then None
  else
    let paidByPayload :=
      if fs_isMultiPayer st then multiPaidBy (fs_multiPayers st)
      else setProp [] (fs_singlePayerId st) finalAmount in
    Some {| d_description := fs_description st;
            d_amount := finalAmount;
            d_paidBy := paidByPayload;
            d_splitBetween := fs_splitBetween st;
            d_category := other;
            d_createdBy := None |}.

(** [handleMagicFill] from the parsed [result] on: its steps 1 to 4 on
    the form state. *)
Definition magicDescription (result : MagicResult) (st : FormState) : FormState :=
  match mr_description result with
  | Some d => if bool_decide (d = "") then st
              else {| fs_amount := fs_amount st; fs_description := d;
                      fs_isMultiPayer := fs_isMultiPayer st;
                      fs_singlePayerId := fs_singlePayerId st;
                      fs_multiPayers := fs_multiPayers st;
                      fs_splitBetween := fs_splitBetween st |}
  | None => st
  end.

Definition magicAmount (result : MagicResult) (st : FormState) : FormState :=
  match mr_totalAmount result with
  | Some total => if JS.truthy total
                  then {| fs_amount := numberToString total;
                          fs_description := fs_description st;
                          fs_isMultiPayer := fs_isMultiPayer st;
                          fs_singlePayerId := fs_singlePayerId st;
                          fs_multiPayers := fs_multiPayers st;
                          fs_splitBetween := fs_splitBetween st |}
                  else st
  | None => st
  end.

Definition validPayers (friends : list Friend) (ps : list MagicPayer) : list MagicPayer :=
  filter (λ p, isFriend friends (mp_friendId p) = true) ps.

Definition newMultiMap (ps : list MagicPayer) : list (string * string) :=
  foldl (λ m p, setProp m (mp_friendId p) (numberToString (mp_amount p))) [] ps.

Definition magicPayers (friends : list Friend) (currentUser : Friend)
    (result : MagicResult) (st : FormState) : FormState :=
  let fallback :=
    {| fs_amount := fs_amount st; fs_description := fs_description st;
       fs_isMultiPayer := false; fs_singlePayerId := f_id currentUser;
       fs_multiPayers := fs_multiPayers st;
       fs_splitBetween := fs_splitBetween st |} in
  match mr_payers result with
  | None | Some [] => fallback
  | Some ps =>
      match validPayers friends ps with
      | [] => fallback
      | [p] =>
          {| fs_amount := fs_amount st; fs_description := fs_description st;
             fs_isMultiPayer := false; fs_singlePayerId := mp_friendId p;
             fs_multiPayers := [];
             fs_splitBetween := fs_splitBetween st |}
      | valid =>
          {| fs_amount := fs_amount st; fs_description := fs_description st;
             fs_isMultiPayer := true; fs_singlePayerId := fs_singlePayerId st;
             fs_multiPayers := newMultiMap valid;
             fs_splitBetween := fs_splitBetween st |}
      end
  end.

(** Step 3 on payers as parsed.  A payer passes the filter when its
    [friendId] is there and is the id of a friend; it is kept here with
    that id and with its amount, if any. *)
Definition knownPayer (friends : list Friend) (p : ParsedPayer)
    : option (string * option float) :=
  match pp_friendId p with
  | Some id => if isFriend friends id then Some (id, pp_amount p) else None
  | None => None
  end.

(** [newMultiMap[p.friendId] = p.amount.toString()] for each payer in
    turn: [None] when an amount is missing, since the call on
    [undefined] throws. *)
Fixpoint fillMultiMap (m : list (string * string)) (ps : list (string * option float))
    : option (list (string * string)) :=
  match ps with
  | [] => Some m
  | (id, Some a) :: rest => fillMultiMap (setProp m id (numberToString a)) rest
  | (_, None) :: _ => None
  end.

Definition magicPayersParsed (friends : list Friend) (currentUser : Friend)
    (payers : option (list ParsedPayer)) (st : FormState) : Run :=
  let fallback :=
    {| fs_amount := fs_amount st; fs_description := fs_description st;
       fs_isMultiPayer := false; fs_singlePayerId := f_id currentUser;
       fs_multiPayers := fs_multiPayers st;
       fs_splitBetween := fs_splitBetween st |} in
  match payers with
  | None | Some [] => Completed fallback
  | Some ps =>
      match omap (knownPayer friends) ps with
      | [] => Completed fallback
      | [(id, _)] =>
          Completed
            {| fs_amount := fs_amount st; fs_description := fs_description st;
               fs_isMultiPayer := false; fs_singlePayerId := id;
               fs_multiPayers := [];
               fs_splitBetween := fs_splitBetween st |}
      | valid =>
          match fillMultiMap [] valid with
          | Some newMultiMap =>
              Completed
                {| fs_amount := fs_amount st; fs_description := fs_description st;
                   fs_isMultiPayer := true; fs_singlePayerId := fs_singlePayerId st;
                   fs_multiPayers := newMultiMap;
                   fs_splitBetween := fs_splitBetween st |}
          | None =>
              Thrown
                {| fs_amount := fs_amount st; fs_description := fs_description st;
                   fs_isMultiPayer := true; fs_singlePayerId := fs_singlePayerId st;
                   fs_multiPayers := fs_multiPayers st;
                   fs_splitBetween := fs_splitBetween st |}
          end
      end
  end.

(** A payer with both properties, as parsed. *)
Definition parsed (p : MagicPayer) : ParsedPayer :=
  {| pp_friendId := Some (mp_friendId p); pp_amount := Some (mp_amount p) |}.

Definition magicSplit (friends : list Friend) (result : MagicResult) : list string :=
  match mr_involvedFriendIds result with
  | None | Some [] => f_id <$> friends
  | Some ids =>
      match filter (λ id, isFriend friends id = true) ids with
      | [] => f_id <$> friends
      | validIds => validIds
      end
  end.

Definition handleMagicFill (friends : list Friend) (currentUser : Friend)
    (result : MagicResult) (st : FormState) : FormState :=
  let st3 := magicPayers friends currentUser result
               (magicAmount result (magicDescription result st)) in
  {| fs_amount := fs_amount st3; fs_description := fs_description st3;
     fs_isMultiPayer := fs_isMultiPayer st3;
     fs_singlePayerId := fs_singlePayerId st3;
     fs_multiPayers := fs_multiPayers st3;
     fs_splitBetween := magicSplit friends result |}.

End Form.

(** An accepted or pending request between two sample profiles, both
    joins present. *)
Definition request (from to : string) (st : Status) : FriendRequest :=
  {| fr_id := from +:+ to; sender_id := from; receiver_id := to; status := st;
     sender := Some (profile from); receiver := Some (profile to) |}.

(** What [parseFloat] returns on the texts the sample forms hold. *)
Definition parseSample (text : string) : float :=
  if bool_decide (text = "300") then 300
  else if bool_decide (text = "120") then 120
  else if bool_decide (text = "180") then 180
  else nan.

(** What [toString] returns on the numbers the sample results hold. *)
Definition showSample (x : float) : string :=
  if PrimFloat.eqb x 120 then "120"
  else if PrimFloat.eqb x 180 then "180"
  else if PrimFloat.eqb x 300 then "300"
  else "NaN".

Definition magicResult (total : float) (involved : list string)
    (payers : list (string * float)) : MagicResult :=
  {| mr_totalAmount := Some total; mr_description := Some "Dinner";
     mr_involvedFriendIds := Some involved;
     mr_payers := Some ((λ kv, {| mp_friendId := kv.1; mp_amount := kv.2 |}) <$> payers) |}.


Definition form (total description0 : string) (multi : bool) (payer : string)
    (multiPayers : list (string * string)) (split : list string) : FormState :=
  {| fs_amount := total; fs_description := description0; fs_isMultiPayer := multi;
     fs_singlePayerId := payer; fs_multiPayers := multiPayers;
     fs_splitBetween := split |}.

(** ** Examples of the specification *)

Example balances_three_way :
  balances [friend "A" true; friend "B" false; friend "C" false] (Some (profile "A"))
    [expense 300 [("A", 300)] ["A"; "B"; "C"]]
  ≡ₚ [ {| friendId := "B"; amount := 100 |}; {| friendId := "C"; amount := 100 |} ].
Proof. vm_compute. apply perm_swap. Qed.

Example balances_owed :
  balances [friend "A" true; friend "B" false] (Some (profile "A"))
    [expense 200 [("B", 200)] ["A"; "B"]]
  = [ {| friendId := "B"; amount := -100 |} ].
Proof. vm_compute. reflexivity. Qed.

Example balances_offset :
  balances [friend "A" true; friend "B" false] (Some (profile "A"))
    [expense 200 [("B", 200)] ["A"; "B"]; expense 200 [("A", 200)] ["A"; "B"]]
  = [ {| friendId := "B"; amount := 0 |} ].
Proof. vm_compute. reflexivity. Qed.

(** ** Facts about binary64 arithmetic *)

Section FloatFacts.

Lemma Prim2SF_nan : Prim2SF nan = S754_nan.
Proof. reflexivity. Qed.

Lemma add_nan_r (x : float) : x + nan = nan.
Proof.
  apply Prim2SF_inj. rewrite add_spec, Prim2SF_nan.
  by destruct (Prim2SF x).
Qed.

Lemma sub_nan_r (x : float) : x - nan = nan.
Proof.
  apply Prim2SF_inj. rewrite sub_spec, Prim2SF_nan.
  by destruct (Prim2SF x).
Qed.

(** A number equal to zero is [0] or [-0]. *)
Lemma is_zero_spec (x : float) :
  PrimFloat.is_zero x = true → ∃ s, Prim2SF x = S754_zero s.
Proof.
  unfold PrimFloat.is_zero. rewrite FloatAxioms.eqb_spec.
  destruct (Prim2SF x) as [s|s| |s m e]; intros H; [by exists s| | |]; try done; by destruct s.
Qed.

(** With a zero total the chunk is [NaN] whatever the other operands
    are: [total / n] is a zero or [NaN], [paid / total] is an infinity
    or [NaN], and the product of a zero and an infinity is [NaN]. *)
Lemma debtChunk_zero_total (n paid total : float) :
  PrimFloat.is_zero total = true →
  debtChunk (total / n) paid total = nan.
Proof.
  intros [s Hs]%is_zero_spec. unfold debtChunk.
  apply Prim2SF_inj. rewrite mul_spec, !div_spec, Hs, Prim2SF_nan.
  by destruct (Prim2SF n), (Prim2SF paid).
Qed.

Lemma is_nan_spec (x : float) : PrimFloat.is_nan x = true → x = nan.
Proof.
  unfold PrimFloat.is_nan. rewrite FloatAxioms.eqb_spec. intros Hne.
  apply Prim2SF_inj. rewrite Prim2SF_nan.
  destruct (Prim2SF x) as [s|s| |s m e]; simpl in Hne; [done| |done|].
  - by destruct s.
  - unfold SFeqb, SFcompare in Hne.
    rewrite Z.compare_refl, Pos.compare_cont_refl in Hne. by destruct s.
Qed.

(** Reading a balance with [|| 0] returns it unchanged unless it is
    [NaN] or [-0]; both of those, and a missing entry, read as [0]. *)
Lemma or_zero_exact (b : float) :
  b ≠ nan → b ≠ neg_zero → JS.or_zero (Some b) = b.
Proof.
  intros Hnan Hneg. unfold JS.or_zero, JS.truthy.
  destruct (PrimFloat.is_zero b) eqn:Hz; simpl.
  - apply is_zero_spec in Hz as [[] Hs]; apply Prim2SF_inj; rewrite Hs; [|done].
    destruct Hneg. apply Prim2SF_inj. by rewrite Hs.
  - destruct (PrimFloat.is_nan b) eqn:Hn; [|done].
    by apply is_nan_spec in Hn.
Qed.

End FloatFacts.

(** ** Expense Normalizer *)

(** C5, as stated, fails for one string: the assignment
    [paidByMap[e.paid_by] = e.amount] goes through the setter of
    ["__proto__"] when that is the stored id, and stores nothing. *)
Lemma formatExpense_proto_counterexample :
  ¬ (∀ e s, s_paid_by e = PaidByString s →
            e_paidBy (formatExpense e) = [(s, s_amount e)]).
Proof.
  intros Hclaim.
  specialize (Hclaim (stored 300 (PaidByString "__proto__") SplitAbsent) "__proto__"
                eq_refl).
  discriminate Hclaim.
Qed.

(** C5, amended.  The normalizer is a total function of the stored
    record, so no input makes it fail, and its canonical [paidBy]
    follows the shape of [paid_by]: a string [s] other than
    ["__proto__"] gives the singleton mapping from [s] to the record's
    amount, a mapping is passed on as it is, [null] and a missing field
    give the empty mapping; a missing [split_between] gives the empty
    sequence.  The list of stored records is mapped record by record, a
    missing list counting as empty.  The string ["__proto__"] gives
    the empty mapping. *)
Theorem formatExpense_cases (e : StoredExpense) :
  (∀ s, s ≠ "__proto__" → s_paid_by e = PaidByString s →
        e_paidBy (formatExpense e) = [(s, s_amount e)]) ∧
  (∀ m, s_paid_by e = PaidByObject m → e_paidBy (formatExpense e) = m) ∧
  (s_paid_by e = PaidByNull ∨ s_paid_by e = PaidByAbsent →
        e_paidBy (formatExpense e) = []) ∧
  (s_split_between e = SplitAbsent → e_splitBetween (formatExpense e) = []) ∧
  (∀ exps, length (formattedExpenses exps) = length (default [] exps)) ∧
  (s_paid_by e = PaidByString "__proto__" → e_paidBy (formatExpense e) = []).
Proof.
  unfold formatExpense, paidByMap; simpl.
  split.
  { intros s Hs ->. unfold setProp. by rewrite bool_decide_eq_false_2. }
  split; [by intros m ->|].
  split; [by intros [-> | ->]|].
  split; [by intros ->|].
  split; [|by intros ->].
  intros exps. unfold formattedExpenses. by rewrite length_fmap.
Qed.

Lemma formatExpense_cases_witness :
  e_paidBy (formatExpense (stored 300 (PaidByString "u1") SplitAbsent)) = [("u1", 300)]
  ∧ e_paidBy (formatExpense (stored 300 PaidByNull SplitAbsent)) = []
  ∧ e_splitBetween (formatExpense (stored 300 PaidByNull SplitAbsent)) = [].
Proof.
  split.
  - apply (proj1 (formatExpense_cases (stored 300 (PaidByString "u1") SplitAbsent)) "u1").
    + discriminate.
    + reflexivity.
  - split.
    + apply (proj1 (proj2 (proj2 (formatExpense_cases (stored 300 PaidByNull SplitAbsent))))).
      left. reflexivity.
    + apply (proj1 (proj2 (proj2 (proj2
               (formatExpense_cases (stored 300 PaidByNull SplitAbsent)))))).
      reflexivity.
Defined.

(** ** Submission Encoder *)

Example encode_single_payer :
  paid_by <$> handleAddExpense (Some (profile "u1")) "t" (draft 300 [("u1", 300)] ["u1"; "u2"])
  = Some (PaidByString "u1").
Proof. vm_compute. reflexivity. Qed.

Example encode_two_payers :
  paid_by <$> handleAddExpense (Some (profile "u1")) "t"
                (draft 300 [("u1", 150); ("u2", 150)] ["u1"; "u2"])
  = Some (PaidByObject [("u1", 150); ("u2", 150)]).
Proof. vm_compute. reflexivity. Qed.

Lemma prop_single (id : string) (v : float) : prop [(id, v)] id = Some v.
Proof. simpl. by rewrite bool_decide_eq_true_2. Qed.

(** C4. With a signed-in user a payload is always built, and its
    [paid_by] is the bare payer id when the draft's [paidBy] has exactly
    one entry whose amount is within 0.01 of the total; with no entry,
    with two or more entries, or with a single entry for which the test
    [|paid - total| < 0.01] fails, it is the draft's mapping itself. *)
Theorem paid_by_routing (u : Profile) (now : string) (d : Draft) :
  ∃ p, handleAddExpense (Some u) now d = Some p ∧
    (∀ id v, d_paidBy d = [(id, v)] →
       PrimFloat.ltb (PrimFloat.abs (v - d_amount d)) JS.cent = true →
       paid_by p = PaidByString id) ∧
    (∀ id v, d_paidBy d = [(id, v)] →
       PrimFloat.ltb (PrimFloat.abs (v - d_amount d)) JS.cent = false →
       paid_by p = PaidByObject (d_paidBy d)) ∧
    (d_paidBy d = [] → paid_by p = PaidByObject (d_paidBy d)) ∧
    ((2 ≤ length (d_paidBy d))%nat → paid_by p = PaidByObject (d_paidBy d)).
Proof.
  eexists. split; [reflexivity|]. simpl. unfold paidByPayload.
  split; [|split; [|split]].
  - intros id v Hd Hlt. rewrite Hd. simpl. unfold paidInFull.
    by rewrite prop_single, Hlt.
  - intros id v Hd Hlt. rewrite Hd. simpl. unfold paidInFull.
    by rewrite prop_single, Hlt.
  - by intros ->.
  - intros Hlen. destruct (d_paidBy d) as [|[k1 v1] [|[k2 v2] rest]]; simpl in *;
      [lia | lia | done].
Qed.

Lemma paid_by_routing_witness :
  ∃ p, handleAddExpense (Some (profile "u1")) "t" (draft 300 [("u1", 300)] ["u1"; "u2"])
       = Some p ∧ paid_by p = PaidByString "u1".
Proof.
  destruct (paid_by_routing (profile "u1") "t" (draft 300 [("u1", 300)] ["u1"; "u2"]))
    as (p & Hp & Hone & _).
  exists p. split; [exact Hp|].
  apply (Hone "u1" 300); reflexivity.
Defined.

(** C8. The payload repeats the draft: amount, split, description and
    category are the draft's, and a [paid_by] in mapping form is the
    draft's [paidBy] with every entry as drafted; the scalar form is
    only ever the key of the draft's single entry. *)
Theorem payload_frame (u : Profile) (now : string) (d : Draft) :
  ∃ p, handleAddExpense (Some u) now d = Some p ∧
    pl_amount p = d_amount d ∧
    split_between p = d_splitBetween d ∧
    description p = d_description d ∧
    category p = d_category d ∧
    (∀ m, paid_by p = PaidByObject m → m = d_paidBy d) ∧
    (∀ id, paid_by p = PaidByString id → ∃ v, d_paidBy d = [(id, v)]).
Proof.
  eexists. split; [reflexivity|]. simpl. repeat split.
  - intros m. unfold paidByPayload.
    destruct ((d_paidBy d).*1) as [|k [|k' ks]]; [congruence| |congruence].
    destruct (paidInFull _ _ _); congruence.
  - intros id. unfold paidByPayload.
    destruct (d_paidBy d) as [|[k v] [|e es]]; simpl; [congruence| |congruence].
    destruct (paidInFull _ _ _); [|congruence].
    intros [= ->]. by exists v.
Qed.

Lemma payload_frame_witness :
  ∃ p, handleAddExpense (Some (profile "u1")) "t"
         (draft 300 [("u1", 100); ("u2", 150)] ["u1"; "u2"]) = Some p ∧
       paid_by p = PaidByObject [("u1", 100); ("u2", 150)] ∧
       [("u1", 100); ("u2", 150)]
       = d_paidBy (draft 300 [("u1", 100); ("u2", 150)] ["u1"; "u2"]).
Proof.
  destruct (payload_frame (profile "u1") "t"
              (draft 300 [("u1", 100); ("u2", 150)] ["u1"; "u2"]))
    as (p & Hp & _ & _ & _ & _ & Hm & _).
  exists p. split; [exact Hp|].
  assert (paid_by p = PaidByObject [("u1", 100); ("u2", 150)]) as Hform.
  { injection Hp as <-. reflexivity. }
  split; [exact Hform|]. apply Hm. exact Hform.
Defined.

(** ** Reading one balance through the loops *)

Section Adjustments.

Variable me : string.

Lemma sumAdjustments_app (start : option float) (l1 l2 : list Adjustment) :
  sumAdjustments start (l1 ++ l2) = sumAdjustments (sumAdjustments start l1) l2.
Proof. apply foldl_app. Qed.

(** Reading one key commutes with a loop once it commutes with its body. *)
Lemma foldl_lookup {A} (step : gmap string float → A → gmap string float)
    (adj : A → list Adjustment) (id : string) :
  (∀ bals x, step bals x !! id = sumAdjustments (bals !! id) (adj x)) →
  ∀ xs bals, foldl step bals xs !! id = sumAdjustments (bals !! id) (xs ≫= adj).
Proof.
  intros Hstep xs. induction xs as [|x xs IH]; intros bals; [done|].
  simpl. rewrite IH, Hstep. symmetry. apply sumAdjustments_app.
Qed.

Lemma lookup_assign (key id : string) (v : float) (obj : gmap string float) :
  id ≠ "__proto__" → JS.assign key v obj !! id = <[key := v]> obj !! id.
Proof.
  intros Hid. unfold JS.assign. case_bool_decide as Hkey; [|done].
  subst. by rewrite lookup_insert_ne.
Qed.

Lemma lookup_assign_proto (key : string) (v : float) (obj : gmap string float) :
  JS.assign key v obj !! "__proto__" = obj !! "__proto__".
Proof.
  unfold JS.assign. case_bool_decide as Hkey; [done|]. by rewrite lookup_insert_ne.
Qed.

Lemma inherited_proto (id : string) : JS.inherited id = false → id ≠ "__proto__".
Proof. by intros Hid ->. Qed.

(** No loop ever gives ["__proto__"] an entry. *)
Lemma foldl_lookup_proto {A} (step : gmap string float → A → gmap string float) :
  (∀ bals x, step bals x !! "__proto__" = bals !! "__proto__") →
  ∀ xs bals, foldl step bals xs !! "__proto__" = bals !! "__proto__".
Proof.
  intros Hstep xs. induction xs as [|x xs IH]; intros bals; [done|].
  simpl. by rewrite IH, Hstep.
Qed.

Lemma accumulate_proto (total cost : float) (consumerId : string)
    (bals : gmap string float) (payer : string * float) :
  accumulate me total cost consumerId bals payer !! "__proto__" = bals !! "__proto__".
Proof.
  destruct payer as [payerId paidAmount]. unfold accumulate.
  repeat case_match; by rewrite ?lookup_assign_proto.
Qed.

Lemma forExpense_proto (bals : gmap string float) (exp : Expense) :
  forExpense me bals exp !! "__proto__" = bals !! "__proto__".
Proof.
  unfold forExpense. apply foldl_lookup_proto. intros b c.
  unfold forConsumer. apply foldl_lookup_proto. intros. apply accumulate_proto.
Qed.

Lemma accumulateAll_proto (bals : gmap string float) (expenses : list Expense) :
  accumulateAll me bals expenses !! "__proto__" = bals !! "__proto__".
Proof. apply foldl_lookup_proto. apply forExpense_proto. Qed.

Lemma accumulate_lookup (id : string) (exp : Expense) (consumerId : string)
    (bals : gmap string float) (payer : string * float) :
  id ≠ "__proto__" →
  accumulate me (e_amount exp) (costPerPerson exp) consumerId bals payer !! id
  = sumAdjustments (bals !! id) (pairAdjustments me id exp consumerId payer).
Proof.
  intros Hid. destruct payer as [payerId paidAmount].
  unfold accumulate, pairAdjustments, debtChunk, costPerPerson; simpl.
  destruct (decide (payerId = me)) as [Hp|Hp], (decide (consumerId = me)) as [Hc|Hc];
    destruct (decide (consumerId = id)) as [Hci|Hci];
    destruct (decide (payerId = id)) as [Hpi|Hpi];
    repeat first [ rewrite bool_decide_eq_true_2 by tauto
                 | rewrite bool_decide_eq_false_2 by tauto ]; simpl;
    rewrite ?lookup_assign by done;
    subst; rewrite ?lookup_insert_eq, ?lookup_insert_ne by done; done.
Qed.

Lemma forConsumer_lookup (id : string) (exp : Expense) (bals : gmap string float)
    (consumerId : string) :
  id ≠ "__proto__" →
  forConsumer me (e_amount exp) (costPerPerson exp) (e_paidBy exp) bals consumerId !! id
  = sumAdjustments (bals !! id) (e_paidBy exp ≫= pairAdjustments me id exp consumerId).
Proof. intros Hid. apply foldl_lookup. intros. by apply accumulate_lookup. Qed.

Lemma forExpense_lookup (id : string) (bals : gmap string float) (exp : Expense) :
  id ≠ "__proto__" →
  forExpense me bals exp !! id
  = sumAdjustments (bals !! id) (expenseAdjustments me id exp).
Proof.
  intros Hid. unfold forExpense, expenseAdjustments.
  apply (foldl_lookup _ (λ c, e_paidBy exp ≫= pairAdjustments me id exp c)).
  intros. by apply forConsumer_lookup.
Qed.

Lemma accumulateAll_lookup (id : string) (bals : gmap string float)
    (expenses : list Expense) :
  id ≠ "__proto__" →
  accumulateAll me bals expenses !! id
  = sumAdjustments (bals !! id) (adjustments me id expenses).
Proof. intros Hid. apply foldl_lookup. intros. by apply forExpense_lookup. Qed.

End Adjustments.

Section EngineFacts.

Variable me : string.

Lemma sumAdjustments_Some (start : option float) (adjs : list Adjustment) :
  is_Some start → is_Some (sumAdjustments start adjs).
Proof.
  revert start. induction adjs as [|a adjs IH]; intros start Hs; [done|].
  change (is_Some (sumAdjustments (adjust start a) adjs)).
  apply IH. destruct a; simpl; eauto.
Qed.

Lemma sumAdjustments_nonempty (start : option float) (adjs : list Adjustment) :
  adjs ≠ [] → is_Some (sumAdjustments start adjs).
Proof.
  destruct adjs as [|a adjs]; [done|]. intros _.
  change (is_Some (sumAdjustments (adjust start a) adjs)).
  apply sumAdjustments_Some. destruct a; simpl; eauto.
Qed.

Lemma elem_of_pairAdjustments (a : Adjustment) (id : string) (exp : Expense)
    (consumerId : string) (payer : string * float) :
  a ∈ pairAdjustments me id exp consumerId payer →
  id ≠ me ∧ ((consumerId = id ∧ payer.1 = me) ∨ (payer.1 = id ∧ consumerId = me)).
Proof.
  unfold pairAdjustments. intros [Ha|Ha]%elem_of_app;
    case_bool_decide; try (by apply elem_of_nil in Ha); naive_solver.
Qed.

Lemma elem_of_adjustments (a : Adjustment) (id : string) (expenses : list Expense) :
  a ∈ adjustments me id expenses ↔
  ∃ exp consumerId payer,
    exp ∈ expenses ∧ consumerId ∈ e_splitBetween exp ∧ payer ∈ e_paidBy exp ∧
    a ∈ pairAdjustments me id exp consumerId payer.
Proof.
  unfold adjustments, expenseAdjustments. rewrite list_elem_of_bind.
  setoid_rewrite list_elem_of_bind. setoid_rewrite list_elem_of_bind.
  naive_solver.
Qed.

Lemma adjustments_nonempty (id : string) (expenses : list Expense) :
  adjustments me id expenses ≠ [] ↔
  id ≠ me ∧ (consumesFromMe me id expenses ∨ paysForMe me id expenses).
Proof.
  split.
  - intros Hne. destruct (adjustments me id expenses) as [|a l] eqn:Hl; [done|].
    assert (a ∈ adjustments me id expenses) as Ha by (rewrite Hl; left).
    apply elem_of_adjustments in Ha as (exp & c & [p v] & He & Hc & Hp & Ha).
    apply elem_of_pairAdjustments in Ha as [Hid [[-> Hp1]|[Hp1 ->]]]; simpl in *.
    + split; [done|]. left. exists exp. repeat split; [done..|].
      rewrite <- Hp1. by apply (list_elem_of_fmap_2 fst) in Hp.
    + split; [done|]. right. exists exp. repeat split; [done| |done].
      rewrite <- Hp1. by apply (list_elem_of_fmap_2 fst) in Hp.
  - intros [Hid [(exp & He & Hc & Hp)|(exp & He & Hp & Hc)]];
      apply list_elem_of_fmap in Hp as ([p v] & Hpv & Hp); simpl in Hpv; subst p.
    + intros Hnil.
      assert (Increase (e_amount exp / JS.of_length (length (e_splitBetween exp))
                        * (v / e_amount exp)) ∈ adjustments me id expenses) as Hin.
      { apply elem_of_adjustments. exists exp, id, (me, v). repeat split; [done..|].
        unfold pairAdjustments; simpl. rewrite bool_decide_eq_true_2 by done. left. }
      rewrite Hnil in Hin. by apply elem_of_nil in Hin.
    + intros Hnil.
      assert (Decrease (e_amount exp / JS.of_length (length (e_splitBetween exp))
                        * (v / e_amount exp)) ∈ adjustments me id expenses) as Hin.
      { apply elem_of_adjustments. exists exp, me, (id, v). repeat split; [done..|].
        unfold pairAdjustments; simpl.
        rewrite bool_decide_eq_false_2 by naive_solver.
        rewrite bool_decide_eq_true_2 by done. left. }
      rewrite Hnil in Hin. by apply elem_of_nil in Hin.
Qed.

Lemma initialize_lookup (friends : list Friend) (id : string) :
  (nonSelf friends id ∧ id ≠ "__proto__" ∧ initialize friends !! id = Some 0) ∨
  ((¬ nonSelf friends id ∨ id = "__proto__") ∧ initialize friends !! id = None).
Proof.
  destruct (decide (id = "__proto__")) as [->|Hid].
  { right. split; [by right|]. unfold initialize.
    apply (foldl_lookup_proto (λ bals f, if JS.falsy_flag (f_isMe f)
                                         then JS.assign (f_id f) 0 bals else bals)).
    intros bals f. destruct (JS.falsy_flag (f_isMe f)); [|done].
    apply lookup_assign_proto. }
  unfold initialize. induction friends as [|f friends IH] using rev_ind.
  - right. split; [|done]. left. by intros (f & ?%elem_of_nil & _).
  - rewrite foldl_snoc.
    assert (nonSelf (friends ++ [f]) id ↔
            nonSelf friends id ∨ (f_id f = id ∧ JS.falsy_flag (f_isMe f) = true)) as Hiff.
    { unfold nonSelf. setoid_rewrite elem_of_app.
      setoid_rewrite list_elem_of_singleton. naive_solver. }
    rewrite Hiff.
    destruct (JS.falsy_flag (f_isMe f)) eqn:Hflag.
    + rewrite lookup_assign by done. destruct (decide (f_id f = id)) as [<-|Hne].
      * rewrite lookup_insert_eq. naive_solver.
      * rewrite lookup_insert_ne by done. naive_solver.
    + naive_solver.
Qed.

Lemma elem_of_balances_lookup (friends : list Friend) (u : Profile)
    (expenses : list Expense) (b : Balance) :
  b ∈ balances friends (Some u) expenses ↔
  accumulateAll (p_id u) (initialize friends) expenses !! friendId b = Some (amount b).
Proof.
  unfold balances. rewrite list_elem_of_fmap. split.
  - intros ([k v] & -> & Hkv). by apply elem_of_map_to_list in Hkv.
  - intros Hl. exists (friendId b, amount b). split; [by destruct b|].
    by apply elem_of_map_to_list.
Qed.

Lemma balances_no_proto (friends : list Friend) (u : Profile) (expenses : list Expense)
    (b : Balance) :
  b ∈ balances friends (Some u) expenses → friendId b ≠ "__proto__".
Proof.
  intros Hb%elem_of_balances_lookup Hproto. rewrite Hproto in Hb.
  rewrite accumulateAll_proto in Hb.
  destruct (initialize_lookup friends "__proto__") as [(_ & ? & _)|[_ Hnone]];
    [done|congruence].
Qed.

Lemma elem_of_balances (friends : list Friend) (u : Profile) (expenses : list Expense)
    (b : Balance) :
  friendId b ≠ "__proto__" →
  b ∈ balances friends (Some u) expenses ↔
  sumAdjustments (initialize friends !! friendId b)
                 (adjustments (p_id u) (friendId b) expenses) = Some (amount b).
Proof.
  intros Hid. by rewrite elem_of_balances_lookup, accumulateAll_lookup.
Qed.

Lemma NoDup_balances (friends : list Friend) (u : option Profile)
    (expenses : list Expense) :
  NoDup (friendId <$> balances friends u expenses).
Proof.
  unfold balances. destruct u as [u|]; [|constructor].
  rewrite <- list_fmap_compose. apply NoDup_fst_map_to_list.
Qed.

End EngineFacts.

Lemma filter_friendId_absent (l : list Balance) (id : string) :
  id ∉ friendId <$> l → filter (λ b, friendId b = id) l = [].
Proof.
  induction l as [|b l IH]; [done|].
  rewrite fmap_cons, elem_of_cons. intros Hnot.
  rewrite filter_cons. case_decide; [naive_solver|]. apply IH. naive_solver.
Qed.

Lemma filter_friendId_unique (l : list Balance) (id : string) :
  NoDup (friendId <$> l) → id ∈ friendId <$> l →
  length (filter (λ b, friendId b = id) l) = 1%nat.
Proof.
  induction l as [|b l IH]; [by intros _ ?%elem_of_nil|].
  rewrite fmap_cons, NoDup_cons, elem_of_cons. intros [Hb Hnd] Hin.
  rewrite filter_cons. case_decide as Hid.
  - subst id. by rewrite filter_friendId_absent.
  - apply IH; [done|]. naive_solver.
Qed.

(** ** Claims about the Balance Engine *)

(** C3. An expense with an empty [splitBetween] changes no balance:
    processing it returns the running balances as they were, so the
    output of the engine over a list that contains it is the output
    over the list without it, and nothing it could have computed (a
    quotient by the zero length) reaches a returned amount. *)
Theorem empty_split_no_change (friends : list Friend) (u : option Profile)
    (before after : list Expense) (exp : Expense) :
  e_splitBetween exp = [] →
  (∀ me bals, forExpense me bals exp = bals) ∧
  balances friends u (before ++ exp :: after) = balances friends u (before ++ after).
Proof.
  intros Hsplit.
  assert (∀ me bals, forExpense me bals exp = bals) as Hskip.
  { intros me bals. unfold forExpense. by rewrite Hsplit. }
  split; [done|]. unfold balances, accumulateAll. destruct u as [u|]; [|done].
  rewrite !foldl_app. simpl. by rewrite Hskip.
Qed.

Lemma empty_split_no_change_witness :
  balances [friend "A" true; friend "B" false] (Some (profile "A"))
    ([expense 200 [("B", 200)] ["A"; "B"]] ++ expense 50 [("A", 50)] [] :: [])
  = balances [friend "A" true; friend "B" false] (Some (profile "A"))
    ([expense 200 [("B", 200)] ["A"; "B"]] ++ []).
Proof.
  apply (empty_split_no_change _ _ _ _ (expense 50 [("A", 50)] [])).
  reflexivity.
Defined.

(** C6, as stated, fails for one id: initialization writes
    [bals[f.id] = 0] on a plain object, and for a friend whose id is
    ["__proto__"] that assignment stores nothing, so the friend has no
    entry. *)
Lemma friend_entries_counterexample :
  ¬ (∀ friends u expenses id,
       nonSelf friends id →
       length (filter (λ b, friendId b = id) (balances friends (Some u) expenses))
       = 1%nat).
Proof.
  intros Hclaim.
  specialize (Hclaim [friend "A" true; friend "__proto__" false] (profile "A") []
                "__proto__").
  discriminate Hclaim.
  exists (friend "__proto__" false). split; [right; left|]. split; reflexivity.
Qed.

(** C6, amended.  With an acting user, the output has exactly one entry
    for every id other than ["__proto__"] that a non-self entry of the
    Friend collection carries, and when that id occurs in no expense,
    neither as a payer nor in a split, the entry's amount is [0]
    itself. *)
Theorem friend_entries (friends : list Friend) (u : Profile) (expenses : list Expense)
    (id : string) :
  nonSelf friends id → id ≠ "__proto__" →
  length (filter (λ b, friendId b = id) (balances friends (Some u) expenses)) = 1%nat ∧
  ((∀ exp, exp ∈ expenses → (id ∉ (e_paidBy exp).*1) ∧ (id ∉ e_splitBetween exp)) →
   {| friendId := id; amount := 0 |} ∈ balances friends (Some u) expenses).
Proof.
  intros Hfriend Hid.
  destruct (initialize_lookup friends id) as [(_ & _ & Hinit)|[[Hnot|Hnot] _]];
    [|done..].
  split.
  - apply filter_friendId_unique; [apply NoDup_balances|].
    destruct (sumAdjustments_Some (Some 0) (adjustments (p_id u) id expenses))
      as [v Hv]; [by eexists|].
    apply (list_elem_of_fmap_2' friendId _ {| friendId := id; amount := v |});
      [|done].
    apply elem_of_balances; [done|]. simpl. by rewrite Hinit.
  - intros Huntouched. apply elem_of_balances; [done|]. simpl. rewrite Hinit.
    destruct (adjustments (p_id u) id expenses) as [|a l] eqn:Hadj; [done|].
    assert (adjustments (p_id u) id expenses ≠ []) as Hne by (by rewrite Hadj).
    apply adjustments_nonempty in Hne
      as [_ [(exp & He & Hc & _)|(exp & He & Hp & _)]];
      destruct (Huntouched exp He); done.
Qed.

Lemma friend_entries_witness :
  length (filter (λ b, friendId b = "C")
            (balances [friend "A" true; friend "B" false; friend "C" false]
               (Some (profile "A")) [expense 200 [("B", 200)] ["A"; "B"]])) = 1%nat.
Proof.
  apply (friend_entries [friend "A" true; friend "B" false; friend "C" false]
           (profile "A") [expense 200 [("B", 200)] ["A"; "B"]] "C").
  - exists (friend "C" false). split; [|split; reflexivity].
    apply list_elem_of_In. simpl. right. right. left. reflexivity.
  - discriminate.
Defined.

(** C9, as stated, fails: initialization leaves out the entries whose
    [isMe] flag is set, whatever their id, so a Friend entry that
    carries the acting user's id without the flag gets a balance. *)
Lemma self_entry_counterexample :
  ¬ (∀ friends u expenses b,
       b ∈ balances friends (Some u) expenses → friendId b ≠ p_id u).
Proof.
  intros Hclaim.
  apply (Hclaim [flagless "A"] (profile "A") [] {| friendId := "A"; amount := 0 |});
    [|reflexivity].
  vm_compute. left.
Qed.

(** C9, amended.  When every entry of the Friend collection that
    carries the acting user's id has [isMe] set, no entry of the output
    has the acting user's id: initialization skips those entries and
    both accumulation branches write only ids other than the acting
    user's. *)
Theorem no_self_entry (friends : list Friend) (u : Profile) (expenses : list Expense) :
  (∀ f, f ∈ friends → f_id f = p_id u → f_isMe f = Some true) →
  ∀ b, b ∈ balances friends (Some u) expenses → friendId b ≠ p_id u.
Proof.
  intros Hflag b Hb Hself.
  pose proof (balances_no_proto _ _ _ _ Hb) as Hproto.
  apply elem_of_balances in Hb; [|done]. rewrite Hself in Hb.
  destruct (adjustments (p_id u) (p_id u) expenses) as [|a l] eqn:Hadj.
  - destruct (initialize_lookup friends (p_id u))
      as [((f & Hf & Hid & Hfalsy) & _)|[_ Hnone]].
    + rewrite (Hflag f Hf Hid) in Hfalsy. discriminate.
    + simpl in Hb. congruence.
  - assert (adjustments (p_id u) (p_id u) expenses ≠ []) as Hne by (by rewrite Hadj).
    apply adjustments_nonempty in Hne as [Hne _]. done.
Qed.

Lemma no_self_entry_witness :
  friendId {| friendId := "B"; amount := -100 |} ≠ p_id (profile "A").
Proof.
  apply (no_self_entry [friend "A" true; friend "B" false] (profile "A")
           [expense 200 [("B", 200)] ["A"; "B"]]).
  - intros f Hf Hid. apply list_elem_of_In in Hf. simpl in Hf.
    destruct Hf as [<-|[<-|[]]]; [reflexivity|discriminate Hid].
  - vm_compute. left.
Defined.

(** C10, as stated, fails: the acting user's own id can be in the
    split of an expense the acting user paid into, and it never gets
    an entry. *)
Lemma output_ids_counterexample :
  ¬ (∀ friends u expenses id,
       consumesFromMe (p_id u) id expenses ∨ paysForMe (p_id u) id expenses →
       ∃ b, b ∈ balances friends (Some u) expenses ∧ friendId b = id).
Proof.
  intros Hclaim.
  destruct (Hclaim [] (profile "A") [expense 200 [("A", 200)] ["A"; "B"]] "A")
    as (b & Hb & Hid).
  - left. exists (expense 200 [("A", 200)] ["A"; "B"]).
    split; [left|]. split; apply list_elem_of_In; simpl; tauto.
  - vm_compute in Hb. apply list_elem_of_singleton in Hb. subst b. discriminate Hid.
Qed.

(** C10, amended.  Every id of the output is a non-self Friend id, or
    occurs in the split of an expense the acting user paid into, or
    among the payers of an expense whose split holds the acting user;
    and every id other than the acting user's and ["__proto__"] that is
    in one of the last two groups has an entry, whether or not the
    Friend collection has it. *)
Theorem output_ids (friends : list Friend) (u : Profile) (expenses : list Expense) :
  (∀ b, b ∈ balances friends (Some u) expenses →
        nonSelf friends (friendId b) ∨
        consumesFromMe (p_id u) (friendId b) expenses ∨
        paysForMe (p_id u) (friendId b) expenses) ∧
  (∀ id, id ≠ p_id u → id ≠ "__proto__" →
        consumesFromMe (p_id u) id expenses ∨ paysForMe (p_id u) id expenses →
        ∃ b, b ∈ balances friends (Some u) expenses ∧ friendId b = id).
Proof.
  split.
  - intros b Hb. pose proof (balances_no_proto _ _ _ _ Hb) as Hproto.
    apply elem_of_balances in Hb; [|done].
    destruct (adjustments (p_id u) (friendId b) expenses) as [|a l] eqn:Hadj.
    + destruct (initialize_lookup friends (friendId b)) as [(Hf & _)|[_ Hnone]];
        [by left|]. simpl in Hb. congruence.
    + assert (adjustments (p_id u) (friendId b) expenses ≠ []) as Hne
        by (by rewrite Hadj).
      apply adjustments_nonempty in Hne as [_ Hne]. by right.
  - intros id Hid Hproto Hgroup.
    destruct (sumAdjustments_nonempty (initialize friends !! id)
                (adjustments (p_id u) id expenses)) as [v Hv].
    { by apply adjustments_nonempty. }
    exists {| friendId := id; amount := v |}. split; [|done].
    by apply elem_of_balances.
Qed.

Lemma output_ids_witness :
  ∃ b, b ∈ balances [] (Some (profile "A")) [expense 200 [("B", 200)] ["A"; "B"]]
       ∧ friendId b = "B".
Proof.
  apply (proj2 (output_ids [] (profile "A") [expense 200 [("B", 200)] ["A"; "B"]]) "B").
  - discriminate.
  - discriminate.
  - right. exists (expense 200 [("B", 200)] ["A"; "B"]).
    split; [left|]. split; apply list_elem_of_In; simpl; tauto.
Defined.

(** ** Zero totals *)

Section ZeroTotal.

Variable me : string.

Lemma pairAdjustments_zero_total (a : Adjustment) (id : string) (exp : Expense)
    (consumerId : string) (payer : string * float) :
  PrimFloat.is_zero (e_amount exp) = true →
  a ∈ pairAdjustments me id exp consumerId payer →
  a = Increase nan ∨ a = Decrease nan.
Proof.
  intros Hzero. unfold pairAdjustments.
  change (_ / _ * (payer.2 / e_amount exp))
    with (debtChunk (e_amount exp / JS.of_length (length (e_splitBetween exp)))
            payer.2 (e_amount exp)).
  rewrite debtChunk_zero_total by done.
  intros [Ha|Ha]%elem_of_app; case_bool_decide;
    try (by apply elem_of_nil in Ha); apply list_elem_of_singleton in Ha; auto.
Qed.

Lemma sumAdjustments_nan (start : option float) (adjs : list Adjustment) :
  (∀ a, a ∈ adjs → a = Increase nan ∨ a = Decrease nan) →
  adjs ≠ [] → sumAdjustments start adjs = Some nan.
Proof.
  destruct adjs as [|a adjs] using rev_ind; [done|]. intros Hall _.
  unfold sumAdjustments. rewrite foldl_snoc.
  destruct (Hall a) as [-> | ->]; [apply elem_of_app; right; left|..]; simpl.
  - by rewrite add_nan_r.
  - by rewrite sub_nan_r.
Qed.

End ZeroTotal.

(** C2, as stated, fails: the quotient [paidAmount / amount] is taken
    without a guard.  An expense of amount [0] that the acting user
    paid and a friend shares turns that friend's balance into [NaN]. *)
Lemma zero_amount_counterexample :
  balances [friend "A" true; friend "B" false] (Some (profile "A")) []
  = [ {| friendId := "B"; amount := 0 |} ]
  ∧ balances [friend "A" true; friend "B" false] (Some (profile "A"))
      [expense 0 [("A", 0)] ["A"; "B"]]
    = [ {| friendId := "B"; amount := nan |} ].
Proof. split; vm_compute; reflexivity. Qed.

(** C2, amended.  For an expense whose amount is zero the division by
    the amount is not guarded: every debt chunk the loop computes is
    [NaN], whatever was paid and however many share.  Processing the
    expense therefore sets to [NaN] the balance of every id other than
    the acting user's that shares the expense while the acting user is
    among its payers, or is among its payers while the acting user
    shares it (for an id that names no member of [Object.prototype]),
    and leaves every other balance as it was. *)
Theorem zero_amount_unguarded (me : string) (exp : Expense) :
  PrimFloat.is_zero (e_amount exp) = true →
  (∀ paidAmount, debtChunk (costPerPerson exp) paidAmount (e_amount exp) = nan) ∧
  (∀ bals id,
     JS.inherited id = false →
     id ≠ me ∧ (consumesFromMe me id [exp] ∨ paysForMe me id [exp]) →
     forExpense me bals exp !! id = Some nan) ∧
  (∀ bals id,
     ¬ (id ≠ me ∧ (consumesFromMe me id [exp] ∨ paysForMe me id [exp])) →
     forExpense me bals exp !! id = bals !! id).
Proof.
  intros Hzero.
  assert (adjustments me = λ id l, l ≫= expenseAdjustments me id) as Hdef by done.
  assert (∀ id, adjustments me id [exp] = expenseAdjustments me id exp) as Hone.
  { intros id. rewrite Hdef. simpl. apply app_nil_r. }
  split; [|split].
  - intros paidAmount. by apply debtChunk_zero_total.
  - intros bals id Hplain%inherited_proto Htouched.
    rewrite forExpense_lookup, <- Hone by done.
    apply sumAdjustments_nan; [|by apply adjustments_nonempty].
    intros a (exp' & c & p & ->%list_elem_of_singleton & _ & _ & Ha)%elem_of_adjustments.
    by apply pairAdjustments_zero_total in Ha.
  - intros bals id Huntouched.
    destruct (decide (id = "__proto__")) as [->|Hproto]; [apply forExpense_proto|].
    rewrite forExpense_lookup, <- Hone by done.
    destruct (adjustments me id [exp]) as [|a l] eqn:Hadj; [done|].
    destruct Huntouched. apply adjustments_nonempty. by rewrite Hadj.
Qed.

Lemma zero_amount_unguarded_witness :
  forExpense "A" {[ "B" := 25 ]} (expense 0 [("A", 0)] ["A"; "B"]) !! "B" = Some nan.
Proof.
  apply (proj1 (proj2 (zero_amount_unguarded "A" (expense 0 [("A", 0)] ["A"; "B"])
                         eq_refl))).
  - reflexivity.
  - split; [discriminate|]. left.
    exists (expense 0 [("A", 0)] ["A"; "B"]).
    split; [left|]. split; apply list_elem_of_In; simpl; tauto.
Defined.

(** C1, as stated, fails: a balance is read with [|| 0] before the
    chunk is applied, so a balance that has become [NaN] restarts from
    [0].  Here a friend's adjustments are [+Infinity], [-Infinity] and
    [+25]; their sum is [NaN], the engine returns [25].  And a consumer
    whose id is ["__proto__"] gets no balance at all, the assignment
    storing nothing. *)
Lemma accumulation_sum_counterexample :
  ¬ (∀ friends u expenses b,
       b ∈ balances friends (Some u) expenses →
       amount b = plainSum (adjustments (p_id u) (friendId b) expenses))
  ∧ adjustments "A" "B"
      [ expense 0.5 [("A", 0x1p1023)] ["B"];
        expense 0.5 [("B", 0x1p1023)] ["A"];
        expense 50 [("A", 50)] ["A"; "B"] ]
    = [ Increase infinity; Decrease infinity; Increase 25 ]
  ∧ balances [friend "A" true] (Some (profile "A"))
      [ expense 50 [("A", 50)] ["A"; "__proto__"] ]
    = [].
Proof.
  split; [|split; vm_compute; reflexivity].
  intros Hclaim.
  specialize (Hclaim [friend "A" true; friend "B" false] (profile "A")
                [ expense 0.5 [("A", 0x1p1023)] ["B"];
                  expense 0.5 [("B", 0x1p1023)] ["A"];
                  expense 50 [("A", 50)] ["A"; "B"] ]
                {| friendId := "B"; amount := 25 |}).
  assert (25 = nan) as Hsum by (apply Hclaim; vm_compute; left).
  apply (f_equal PrimFloat.is_nan) in Hsum. vm_compute in Hsum. discriminate Hsum.
Qed.

(** C1, amended.  For every expense and every (payer, consumer) pair of
    it, with [debtChunk = (amount / |splitBetween|) * (paidAmount /
    amount)]: when the payer is the acting user and the consumer is
    someone else, the consumer's balance becomes its current value read
    with [|| 0] plus the chunk and nothing else changes; when the
    consumer is the acting user and the payer is someone else, the
    payer's balance becomes its current value read with [|| 0] minus
    the chunk and nothing else changes; every other pair leaves the
    balances as they are.  Read with [|| 0], a balance is the entry
    itself, except that a missing entry, [NaN] and [-0] read as [0].
    The amount the engine returns for a friend is the result of
    applying that friend's adjustments in this way, over all expenses
    in the order of the loops, starting from the initialized entry.
    The written id is one that names no member of [Object.prototype]. *)
Theorem accumulation_rule (u : Profile) :
  (∀ exp consumerId payerId paidAmount bals,
     let chunk := (e_amount exp / JS.of_length (length (e_splitBetween exp)))
                  * (paidAmount / e_amount exp) in
     let bals' := accumulate (p_id u) (e_amount exp) (costPerPerson exp) consumerId
                    bals (payerId, paidAmount) in
     (payerId = p_id u → consumerId ≠ p_id u → JS.inherited consumerId = false →
        bals' = <[consumerId := JS.or_zero (bals !! consumerId) + chunk]> bals) ∧
     (consumerId = p_id u → payerId ≠ p_id u → JS.inherited payerId = false →
        bals' = <[payerId := JS.or_zero (bals !! payerId) - chunk]> bals) ∧
     (¬ (payerId = p_id u ∧ consumerId ≠ p_id u) →
      ¬ (consumerId = p_id u ∧ payerId ≠ p_id u) → bals' = bals)) ∧
  (∀ b, b ≠ nan → b ≠ neg_zero → JS.or_zero (Some b) = b) ∧
  (JS.or_zero None = 0 ∧ JS.or_zero (Some nan) = 0 ∧ JS.or_zero (Some neg_zero) = 0) ∧
  (∀ friends expenses b,
     JS.inherited (friendId b) = false →
     b ∈ balances friends (Some u) expenses ↔
     sumAdjustments (initialize friends !! friendId b)
       (adjustments (p_id u) (friendId b) expenses) = Some (amount b)).
Proof.
  split; [|split; [apply or_zero_exact | split; [done|]]].
  2: { intros friends expenses b Hplain%inherited_proto. by apply elem_of_balances. }
  intros exp consumerId payerId paidAmount bals.
  unfold accumulate, debtChunk, costPerPerson. simpl.
  split; [|split].
  - intros Hp Hc Hplain%inherited_proto. unfold JS.assign.
    rewrite (bool_decide_eq_true_2 (payerId = p_id u)) by done.
    rewrite (bool_decide_eq_true_2 (consumerId ≠ p_id u)) by done.
    rewrite (bool_decide_eq_false_2 (payerId ≠ p_id u)) by tauto. simpl.
    by rewrite (bool_decide_eq_false_2 (consumerId = "__proto__")).
  - intros Hc Hp Hplain%inherited_proto. unfold JS.assign.
    rewrite (bool_decide_eq_false_2 (payerId = p_id u)) by done.
    rewrite (bool_decide_eq_true_2 (payerId ≠ p_id u)) by done.
    rewrite (bool_decide_eq_true_2 (consumerId = p_id u)) by done. simpl.
    by rewrite (bool_decide_eq_false_2 (payerId = "__proto__")).
  - intros H1 H2.
    destruct (decide (payerId = p_id u)) as [Hp|Hp],
             (decide (consumerId = p_id u)) as [Hc|Hc];
      repeat first [ rewrite bool_decide_eq_true_2 by tauto
                   | rewrite bool_decide_eq_false_2 by tauto ]; simpl; tauto.
Qed.

Lemma accumulation_rule_witness :
  accumulate "A" 300 100 "B" {[ "B" := 50 ]} ("A", 300)
  = <[ "B" := JS.or_zero (({[ "B" := 50 ]} : gmap string float) !! "B")
               + (300 / JS.of_length 3) * (300 / 300) ]> {[ "B" := 50 ]}
  ∧ JS.or_zero (Some 50) = 50.
Proof.
  split.
  - apply (proj1 (proj1 (accumulation_rule (profile "A"))
                   (expense 300 [("A", 300)] ["A"; "B"; "C"]) "B" "A" 300 {[ "B" := 50 ]}));
      [reflexivity | discriminate | reflexivity].
  - apply (proj1 (proj2 (accumulation_rule (profile "A")))); discriminate.
Defined.

(** C7. The engine is a function of the expense list, the Friend
    collection and the acting user: two runs on the same three inputs
    return the same (friendId, amount) pairs with the same
    multiplicities.  The order in which the entries of [bals] are
    enumerated is the only freedom a run has, and it does not show in
    the multiset: any duplicate-free enumeration of the entries of the
    final [bals] gives a permutation of the output. *)
Theorem balances_deterministic (friends : list Friend) (userProfile : option Profile)
    (expenses : list Expense) :
  (∀ friends' userProfile' expenses',
     friends' = friends → userProfile' = userProfile → expenses' = expenses →
     balances friends' userProfile' expenses' ≡ₚ balances friends userProfile expenses) ∧
  (∀ u (entries : list (string * float)),
     userProfile = Some u →
     NoDup entries.*1 →
     (∀ k v, (k, v) ∈ entries ↔
             accumulateAll (p_id u) (initialize friends) expenses !! k = Some v) →
     toBalance <$> entries ≡ₚ balances friends userProfile expenses).
Proof.
  split; [by intros ? ? ? -> -> ->|].
  intros u entries -> Hnodup Hentries. unfold balances.
  apply fmap_Permutation, NoDup_Permutation.
  - by apply NoDup_fmap_1 in Hnodup.
  - apply NoDup_map_to_list.
  - intros [k v]. by rewrite elem_of_map_to_list.
Qed.

Lemma balances_deterministic_witness :
  balances [friend "A" true; friend "B" false; friend "C" false] (Some (profile "A"))
    [expense 300 [("A", 300)] ["A"; "B"; "C"]]
  ≡ₚ balances [friend "A" true; friend "B" false; friend "C" false] (Some (profile "A"))
    [expense 300 [("A", 300)] ["A"; "B"; "C"]].
Proof.
  apply (proj1 (balances_deterministic
                  [friend "A" true; friend "B" false; friend "C" false]
                  (Some (profile "A")) [expense 300 [("A", 300)] ["A"; "B"; "C"]]));
    reflexivity.
Defined.

(** ** More binary64 facts *)

Lemma add_nan_l (x : float) : nan + x = nan.
Proof. apply Prim2SF_inj. by rewrite add_spec, Prim2SF_nan. Qed.

Lemma sub_zero_r (x : float) : x - 0 = x.
Proof.
  apply Prim2SF_inj. rewrite sub_spec.
  change (Prim2SF 0) with (S754_zero false).
  by destruct (Prim2SF x) as [[]| | |].
Qed.

Lemma is_nan_Prim2SF (x : float) :
  PrimFloat.is_nan x = negb (SFeqb (Prim2SF x) (Prim2SF x)).
Proof. unfold PrimFloat.is_nan. by rewrite FloatAxioms.eqb_spec. Qed.

(** A finite number is a zero or has a mantissa and an exponent. *)
Lemma is_finite_spec (x : float) :
  PrimFloat.is_finite x = true →
  (∃ s, Prim2SF x = S754_zero s) ∨ (∃ s m e, Prim2SF x = S754_finite s m e).
Proof.
  unfold PrimFloat.is_finite, PrimFloat.is_infinity.
  rewrite is_nan_Prim2SF, FloatAxioms.eqb_spec, abs_spec.
  change (Prim2SF infinity) with (S754_infinity false).
  destruct (Prim2SF x) as [s|s| |s m e]; simpl; [eauto| |done|eauto 10].
  by destruct s.
Qed.

Lemma sub_diag (x : float) : PrimFloat.is_finite x = true → x - x = 0.
Proof.
  intros [[s Hs]|(s & m & e & Hs)]%is_finite_spec;
    apply Prim2SF_inj; rewrite sub_spec, Hs;
    change (Prim2SF 0) with (S754_zero false).
  - by destruct s.
  - unfold SF64sub, SFsub. by rewrite Z.sub_diag.
Qed.

Lemma or_zero_not_nan (x : option float) : PrimFloat.is_nan (JS.or_zero x) = false.
Proof.
  unfold JS.or_zero, JS.truthy. destruct x as [v|]; [|done].
  destruct (PrimFloat.is_zero v), (PrimFloat.is_nan v) eqn:Hn; done.
Qed.

(** A number above zero is truthy. *)
Lemma positive_truthy (v : float) : PrimFloat.ltb 0 v = true → JS.truthy v = true.
Proof.
  unfold JS.truthy, PrimFloat.is_zero. rewrite ltb_spec, is_nan_Prim2SF, FloatAxioms.eqb_spec.
  change (Prim2SF 0) with (S754_zero false).
  destruct (Prim2SF v) as [s|s| |s m e]; simpl; try done.
  - by destruct s.
  - destruct s; [done|]. intros _. unfold SFeqb, SFcompare.
    by rewrite Z.compare_refl, Pos.compare_cont_refl.
Qed.

(** ** The Friend collection built by [fetchUserData] *)

Lemma findFriend_None (friends : list Friend) (id : string) :
  findFriend friends id = None ↔ id ∉ f_id <$> friends.
Proof.
  unfold findFriend. induction friends as [|f friends IH]; simpl.
  - split; [intros _; apply not_elem_of_nil|done].
  - rewrite not_elem_of_cons. case_bool_decide; [naive_solver|].
    rewrite IH. naive_solver.
Qed.

Section FetchFriends.

Variable uid : string.

Lemma forRequest_confirmed (c c' : list Friend) (pl pl' : list FriendRequest)
    (req : FriendRequest) :
  forRequest uid (c, pl) req = Some (c', pl') →
  c' = c ∨
  ∃ friend, status req = accepted ∧ counterpart uid req = Some friend ∧
            (p_id friend ∉ f_id <$> c) ∧ c' = c ++ [asFriend friend false].
Proof.
  unfold forRequest. destruct (status req) eqn:Hst.
  - case_bool_decide; intros [= <- _]; by left.
  - destruct (counterpart uid req) as [friend|] eqn:Hcp; [|done].
    destruct (findFriend c (p_id friend)) eqn:Hfind; intros [= <- _]; [by left|].
    right. exists friend. by rewrite <- findFriend_None.
Qed.

Lemma forRequest_accepted (c c' : list Friend) (pl pl' : list FriendRequest)
    (req : FriendRequest) :
  forRequest uid (c, pl) req = Some (c', pl') → status req = accepted →
  ∃ friend, counterpart uid req = Some friend ∧ p_id friend ∈ f_id <$> c'.
Proof.
  unfold forRequest. intros Hstep Hst. rewrite Hst in Hstep.
  destruct (counterpart uid req) as [friend|]; [|done]. exists friend. split; [done|].
  destruct (findFriend c (p_id friend)) eqn:Hfind; injection Hstep as <- _.
  - destruct (decide (p_id friend ∈ f_id <$> c)) as [|Hno]; [done|].
    apply findFriend_None in Hno. congruence.
  - rewrite fmap_app, elem_of_app. right. simpl. left.
Qed.

Lemma forRequest_pending (c c' : list Friend) (pl pl' : list FriendRequest)
    (req : FriendRequest) :
  forRequest uid (c, pl) req = Some (c', pl') →
  pl' = pl ++ (if incoming uid req then [req] else []).
Proof.
  unfold forRequest, incoming. destruct (status req).
  - case_bool_decide; intros [= _ <-]; [done|by rewrite app_nil_r].
  - destruct (counterpart uid req) as [friend|]; [|done].
    destruct (findFriend c (p_id friend)); intros [= _ <-]; by rewrite app_nil_r.
Qed.

Lemma forRequest_None (acc : list Friend * list FriendRequest) (req : FriendRequest) :
  forRequest uid acc req = None ↔ status req = accepted ∧ counterpart uid req = None.
Proof.
  unfold forRequest. destruct acc as [c pl], (status req).
  - case_bool_decide; naive_solver.
  - destruct (counterpart uid req) as [friend|]; [|naive_solver].
    destruct (findFriend c (p_id friend)); naive_solver.
Qed.

(** What the loop adds to [confirmed]: entries flagged [isMe: false],
    each the counterpart of an accepted request, with no id repeated. *)
Lemma forEachRequest_confirmed (reqs : list FriendRequest) :
  ∀ c pl c' pl',
    forEachRequest uid (c, pl) reqs = Some (c', pl') →
    ∃ extra, c' = c ++ extra ∧
      Forall (λ f, f_isMe f = Some false) extra ∧
      (NoDup (f_id <$> c) → NoDup (f_id <$> c')) ∧
      (∀ id, id ∈ f_id <$> extra →
         ∃ req friend, req ∈ reqs ∧ status req = accepted ∧
                       counterpart uid req = Some friend ∧ p_id friend = id).
Proof.
  induction reqs as [|req reqs IH]; intros c pl c' pl'; cbn [forEachRequest].
  - intros [= <- _]. exists []. rewrite app_nil_r.
    repeat split; [constructor|done|]. intros id Hid. simpl in Hid.
    by apply elem_of_nil in Hid.
  - destruct (forRequest uid (c, pl) req) as [[c1 pl1]|] eqn:Hstep; [|done].
    intros (extra & -> & Hflags & Hnd & Hfrom)%IH.
    apply forRequest_confirmed in Hstep as [->|(friend & Hst & Hcp & Hnew & ->)].
    + exists extra. repeat split; [done..|]. intros id Hid.
      destruct (Hfrom id Hid) as (r & fr & ? & ?). exists r, fr. split; [by right|done].
    + exists (asFriend friend false :: extra).
      split; [by rewrite <- app_assoc|]. split; [by constructor|]. split.
      * intros Hc. apply Hnd. rewrite fmap_app. apply NoDup_app. split; [done|].
        split; [|apply NoDup_singleton].
        intros x Hx ->%list_elem_of_singleton. done.
      * intros id. rewrite fmap_cons, elem_of_cons. intros [->|Hid].
        -- exists req, friend. split; [left|done].
        -- destruct (Hfrom id Hid) as (r & fr & ? & ?). exists r, fr.
           split; [by right|done].
Qed.

Lemma forEachRequest_complete (reqs : list FriendRequest) :
  ∀ c pl c' pl',
    forEachRequest uid (c, pl) reqs = Some (c', pl') →
    ∀ req, req ∈ reqs → status req = accepted →
    ∃ friend, counterpart uid req = Some friend ∧ p_id friend ∈ f_id <$> c'.
Proof.
  induction reqs as [|r reqs IH]; intros c pl c' pl'; cbn [forEachRequest].
  - by intros _ req ?%elem_of_nil.
  - destruct (forRequest uid (c, pl) r) as [[c1 pl1]|] eqn:Hstep; [|done].
    intros Hrest req [->|Hin]%elem_of_cons Hst; [|by eapply IH].
    destruct (forRequest_accepted _ _ _ _ _ Hstep Hst) as (friend & Hcp & Hin).
    exists friend. split; [done|].
    apply forEachRequest_confirmed in Hrest as (extra & -> & _).
    rewrite fmap_app, elem_of_app. by left.
Qed.

Lemma forEachRequest_pending (reqs : list FriendRequest) :
  ∀ c pl c' pl',
    forEachRequest uid (c, pl) reqs = Some (c', pl') →
    pl' = pl ++ filter (λ req, incoming uid req = true) reqs.
Proof.
  induction reqs as [|r reqs IH]; intros c pl c' pl'; cbn [forEachRequest].
  - intros [= _ <-]. by rewrite app_nil_r.
  - destruct (forRequest uid (c, pl) r) as [[c1 pl1]|] eqn:Hstep; [|done].
    intros ->%IH. apply forRequest_pending in Hstep as ->.
    rewrite filter_cons. case_decide as Hinc.
    + rewrite Hinc. by rewrite <- app_assoc.
    + apply not_true_is_false in Hinc. rewrite Hinc. by rewrite app_nil_r.
Qed.

Lemma forEachRequest_None (reqs : list FriendRequest) :
  ∀ acc, forEachRequest uid acc reqs = None ↔
         ∃ req, req ∈ reqs ∧ status req = accepted ∧ counterpart uid req = None.
Proof.
  induction reqs as [|r reqs IH]; intros acc; cbn [forEachRequest].
  - split; [done|]. by intros (req & ?%elem_of_nil & _).
  - destruct (forRequest uid acc r) as [acc1|] eqn:Hstep.
    + rewrite IH. setoid_rewrite elem_of_cons. split; [naive_solver|].
      intros (req & [->|Hin] & Hst & Hcp); [|naive_solver].
      assert (forRequest uid acc r = None) by (by apply forRequest_None).
      congruence.
    + apply forRequest_None in Hstep. split; [|done]. intros _.
      exists r. split; [left|done].
Qed.

End FetchFriends.

Lemma fetched_NoDup (uid : string) (p : Profile)
    (reqs : option (list FriendRequest)) (friends : list Friend)
    (pendingList : list FriendRequest) :
  fetchFriends uid p reqs = Some (friends, pendingList) →
  NoDup (f_id <$> friends).
Proof.
  unfold fetchFriends.
  intros (extra & _ & _ & Hnd & _)%forEachRequest_confirmed.
  apply Hnd. apply NoDup_singleton.
Qed.

Lemma fetched_shape (uid : string) (p : Profile)
    (reqs : option (list FriendRequest)) (friends : list Friend)
    (pendingList : list FriendRequest) :
  fetchFriends uid p reqs = Some (friends, pendingList) →
  ∃ rest, friends = asFriend p true :: rest ∧
          Forall (λ f, f_isMe f = Some false ∧ f_id f ≠ p_id p) rest.
Proof.
  unfold fetchFriends.
  intros (extra & -> & Hflags & Hnd & _)%forEachRequest_confirmed.
  exists extra. split; [done|].
  specialize (Hnd (NoDup_singleton _)). simpl in Hnd.
  apply NoDup_cons in Hnd as [Hself _].
  apply Forall_forall. intros f Hf. split.
  - by apply (proj1 (Forall_forall _ _) Hflags).
  - intros Heq. apply Hself. rewrite <- Heq. by apply list_elem_of_fmap_2.
Qed.

(** X1. The Friend collection that [fetchUserData] hands to
    [setFriends] never holds the same id twice, whatever the requests
    are (a pair befriended in both directions, a request of the user to
    themselves, a repeated row). *)
Theorem fetchFriends_NoDup (uid : string) (p : Profile)
    (reqs : option (list FriendRequest)) (friends : list Friend)
    (pendingList : list FriendRequest) :
  fetchFriends uid p reqs = Some (friends, pendingList) →
  NoDup (f_id <$> friends).
Proof. apply fetched_NoDup. Qed.

Lemma fetchFriends_NoDup_witness :
  NoDup (f_id <$> [asFriend (profile "A") true; asFriend (profile "B") false;
                   asFriend (profile "C") false]).
Proof.
  apply (fetchFriends_NoDup "A" (profile "A")
           (Some [request "A" "B" accepted; request "C" "A" accepted;
                  request "B" "A" accepted; request "A" "A" accepted]) _ []).
  vm_compute. reflexivity.
Defined.

(** X2. The collection starts with the
    acting user flagged [isMe: true], and every other entry is flagged
    [isMe: false] and carries another id. *)
Theorem fetchFriends_self_first (uid : string) (p : Profile)
    (reqs : option (list FriendRequest)) (friends : list Friend)
    (pendingList : list FriendRequest) :
  fetchFriends uid p reqs = Some (friends, pendingList) →
  ∃ rest, friends = asFriend p true :: rest ∧
          Forall (λ f, f_isMe f = Some false ∧ f_id f ≠ p_id p) rest.
Proof. apply fetched_shape. Qed.

Lemma fetchFriends_self_first_witness :
  ∃ rest, [asFriend (profile "A") true; asFriend (profile "B") false]
          = asFriend (profile "A") true :: rest ∧
          Forall (λ f, f_isMe f = Some false ∧ f_id f ≠ p_id (profile "A")) rest.
Proof.
  apply (fetchFriends_self_first "A" (profile "A")
           (Some [request "A" "B" accepted; request "A" "A" accepted]) _ []).
  vm_compute. reflexivity.
Defined.

(** X3. Balances computed over a fetched Friend collection for the
    fetched profile never contain an entry for the acting user: the
    collection flags the acting user and no other entry has that id. *)
Theorem fetched_friends_no_self_balance (uid : string) (p : Profile)
    (reqs : option (list FriendRequest)) (friends : list Friend)
    (pendingList : list FriendRequest) (expenses : list Expense) (b : Balance) :
  fetchFriends uid p reqs = Some (friends, pendingList) →
  b ∈ balances friends (Some p) expenses → friendId b ≠ p_id p.
Proof.
  intros (rest & -> & Hrest)%fetched_shape Hb Hself.
  pose proof (balances_no_proto _ _ _ _ Hb) as Hproto.
  apply elem_of_balances in Hb; [|done]. rewrite Hself in Hb.
  destruct (adjustments (p_id p) (p_id p) expenses) as [|a l] eqn:Hadj.
  - destruct (initialize_lookup (asFriend p true :: rest) (p_id p))
      as [((f & Hf & Hid & Hfalsy) & _)|[_ Hnone]]; [|simpl in Hb; congruence].
    apply elem_of_cons in Hf as [->|Hf]; [done|].
    apply (proj1 (Forall_forall _ _) Hrest) in Hf as [_ Hne]. done.
  - assert (adjustments (p_id p) (p_id p) expenses ≠ []) as Hne by (by rewrite Hadj).
    apply adjustments_nonempty in Hne as [Hne _]. done.
Qed.

Lemma fetched_friends_no_self_balance_witness :
  friendId {| friendId := "B"; amount := -100 |} ≠ p_id (profile "A").
Proof.
  apply (fetched_friends_no_self_balance "A" (profile "A")
           (Some [request "A" "B" accepted])
           [asFriend (profile "A") true; asFriend (profile "B") false] []
           [expense 200 [("B", 200)] ["A"; "B"]]).
  - vm_compute. reflexivity.
  - vm_compute. left.
Defined.

(** X4. An id is in the fetched collection exactly when it is the
    profile's own id or the id of the other party of an accepted
    request. *)
Theorem fetchFriends_members (uid : string) (p : Profile)
    (reqs : option (list FriendRequest)) (friends : list Friend)
    (pendingList : list FriendRequest) (id : string) :
  fetchFriends uid p reqs = Some (friends, pendingList) →
  id ∈ f_id <$> friends ↔
  id = p_id p ∨
  ∃ req friend, req ∈ default [] reqs ∧ status req = accepted ∧
                counterpart uid req = Some friend ∧ p_id friend = id.
Proof.
  unfold fetchFriends. intros Hfetch.
  pose proof (forEachRequest_complete _ _ _ _ _ _ Hfetch) as Hall.
  apply forEachRequest_confirmed in Hfetch as (extra & -> & _ & _ & Hfrom).
  rewrite fmap_app, elem_of_app. split.
  - intros [Hself|Hextra]; [left|right; by apply Hfrom].
    simpl in Hself. by apply list_elem_of_singleton in Hself.
  - intros [->|(req & friend & Hin & Hst & Hcp & <-)].
    + left. simpl. left.
    + destruct (Hall req Hin Hst) as (friend' & Hcp' & Hmem).
      rewrite fmap_app, elem_of_app in Hmem. congruence.
Qed.

Lemma fetchFriends_members_witness :
  "C" ∈ f_id <$> [asFriend (profile "A") true; asFriend (profile "C") false].
Proof.
  assert (fetchFriends "A" (profile "A")
            (Some [request "C" "A" accepted; request "B" "A" pending])
          = Some ([asFriend (profile "A") true; asFriend (profile "C") false],
                  [request "B" "A" pending])) as Hfetch
    by (vm_compute; reflexivity).
  apply (proj2 (fetchFriends_members _ _ _ _ _ "C" Hfetch)).
  right. exists (request "C" "A" accepted), (profile "C").
  split; [left|]. repeat split.
Defined.

(** X5. The pending list handed to [setRequests] is the list of the
    pending requests addressed to the user, in their order: requests the
    user sent, and accepted ones, never show up in it. *)
Theorem fetchFriends_pending (uid : string) (p : Profile)
    (reqs : option (list FriendRequest)) (friends : list Friend)
    (pendingList : list FriendRequest) :
  fetchFriends uid p reqs = Some (friends, pendingList) →
  pendingList = filter (λ req, incoming uid req = true) (default [] reqs).
Proof. unfold fetchFriends. by intros ->%forEachRequest_pending. Qed.

Lemma fetchFriends_pending_witness :
  [request "B" "A" pending]
  = filter (λ req, incoming "A" req = true)
      (default [] (Some [request "C" "A" accepted; request "A" "D" pending;
                         request "B" "A" pending])).
Proof.
  apply (fetchFriends_pending "A" (profile "A") _
           [asFriend (profile "A") true; asFriend (profile "C") false]).
  vm_compute. reflexivity.
Defined.

(** X6. Building the collection fails exactly when some accepted
    request comes without the joined profile of its other party;
    pending requests and missing joins on the user's own side never
    make it fail. *)
Theorem fetchFriends_fails (uid : string) (p : Profile)
    (reqs : option (list FriendRequest)) :
  fetchFriends uid p reqs = None ↔
  ∃ req, req ∈ default [] reqs ∧ status req = accepted ∧ counterpart uid req = None.
Proof. unfold fetchFriends. apply forEachRequest_None. Qed.

Lemma fetchFriends_fails_witness :
  fetchFriends "A" (profile "A")
    (Some [ {| fr_id := "r"; sender_id := "B"; receiver_id := "A";
               status := accepted; sender := None;
               receiver := Some (profile "A") |} ]) = None.
Proof.
  apply (proj2 (fetchFriends_fails "A" (profile "A") _)).
  eexists. split; [left|]. split; reflexivity.
Defined.

(** ** Profile updates *)

Lemma initialize_handleProfileUpdate (updatedProfile : Profile) (friends : list Friend) :
  initialize (handleProfileUpdate updatedProfile friends) = initialize friends.
Proof.
  unfold initialize, handleProfileUpdate.
  generalize (∅ : gmap string float).
  induction friends as [|f friends IH]; intros bals; [done|].
  rewrite fmap_cons. cbn [foldl]. rewrite IH. f_equal.
  case_bool_decide as Hid; [|done]. simpl. by rewrite Hid.
Qed.

(** X7. Changing the name or the avatar never moves a balance: after
    [handleProfileUpdate] stored the updated profile and rewrote the
    Friend collection, the engine returns what it returned before. *)
Theorem profile_update_keeps_balances (u updatedProfile : Profile)
    (friends : list Friend) (expenses : list Expense) :
  p_id updatedProfile = p_id u →
  balances (handleProfileUpdate updatedProfile friends) (Some updatedProfile) expenses
  = balances friends (Some u) expenses.
Proof.
  intros Hid. unfold balances.
  by rewrite initialize_handleProfileUpdate, Hid.
Qed.

Lemma profile_update_keeps_balances_witness :
  balances (handleProfileUpdate
              {| p_id := "A"; p_email := "A"; p_name := "Ann"; p_avatar := Some "img" |}
              [friend "A" true; friend "B" false])
    (Some {| p_id := "A"; p_email := "A"; p_name := "Ann"; p_avatar := Some "img" |})
    [expense 200 [("B", 200)] ["A"; "B"]]
  = balances [friend "A" true; friend "B" false] (Some (profile "A"))
      [expense 200 [("B", 200)] ["A"; "B"]].
Proof. apply profile_update_keeps_balances. reflexivity. Defined.

(** ** What the screens show *)

Lemma totalBalance_from_nan (bs : list Balance) :
  foldl (λ acc curr, acc + amount curr) nan bs = nan.
Proof. induction bs as [|b bs IH]; [done|]. simpl. by rewrite add_nan_l. Qed.

(** X8. One [NaN] balance makes the total of the home screen [NaN],
    wherever the entry stands in the list and whatever the other
    balances are. *)
Theorem totalBalance_nan (bs : list Balance) (b : Balance) :
  b ∈ bs → amount b = nan → totalBalance bs = nan.
Proof.
  intros (l1 & l2 & ->)%list_elem_of_split Hnan. unfold totalBalance.
  rewrite foldl_app. simpl. rewrite Hnan, add_nan_r.
  apply totalBalance_from_nan.
Qed.

Lemma totalBalance_nan_witness :
  totalBalance [ {| friendId := "B"; amount := 40 |};
                 {| friendId := "C"; amount := nan |};
                 {| friendId := "D"; amount := -15 |} ] = nan.
Proof.
  apply (totalBalance_nan _ {| friendId := "C"; amount := nan |});
    [right; left | reflexivity].
Defined.

Lemma find_friendId_Some (bs : list Balance) (b : Balance) :
  NoDup (friendId <$> bs) → b ∈ bs →
  find (λ b', bool_decide (friendId b' = friendId b)) bs = Some b.
Proof.
  induction bs as [|b0 bs IH]; [by intros _ ?%elem_of_nil|].
  rewrite fmap_cons, NoDup_cons. intros [Hb0 Hnd] [->|Hin]%elem_of_cons; simpl.
  - by rewrite bool_decide_eq_true_2.
  - rewrite bool_decide_eq_false_2; [by apply IH|].
    intros Heq. apply Hb0. rewrite Heq. by apply list_elem_of_fmap_2.
Qed.

Lemma find_friendId_None (bs : list Balance) (id : string) :
  id ∉ friendId <$> bs → find (λ b', bool_decide (friendId b' = id)) bs = None.
Proof.
  induction bs as [|b0 bs IH]; [done|].
  rewrite fmap_cons, not_elem_of_cons. intros [Hne Hnot]. simpl.
  rewrite bool_decide_eq_false_2 by done. by apply IH.
Qed.

(** X9. The balance the friends tab shows for an id is the engine's
    final entry for that id read with [|| 0]: a friend without an entry
    shows [0], and so does a friend whose balance is [NaN]; the value
    shown is never [NaN]. *)
Theorem friendBal_balances (friends : list Friend) (u : Profile)
    (expenses : list Expense) (id : string) :
  friendBal (balances friends (Some u) expenses) id
  = JS.or_zero (accumulateAll (p_id u) (initialize friends) expenses !! id)
  ∧ PrimFloat.is_nan (friendBal (balances friends (Some u) expenses) id) = false.
Proof.
  split; [|apply or_zero_not_nan]. unfold friendBal.
  destruct (accumulateAll (p_id u) (initialize friends) expenses !! id) as [v|] eqn:Hl.
  - assert ({| friendId := id; amount := v |} ∈ balances friends (Some u) expenses) as Hin.
    { by apply elem_of_balances_lookup. }
    pose proof (find_friendId_Some _ _ (NoDup_balances _ _ _) Hin) as Hfind.
    change (friendId {| friendId := id; amount := v |}) with id in Hfind.
    by rewrite Hfind.
  - rewrite find_friendId_None; [done|].
    intros (b & -> & Hb)%list_elem_of_fmap. apply elem_of_balances_lookup in Hb.
    congruence.
Qed.

Lemma prop_None (m : list (string * float)) (id : string) :
  id ∉ m.*1 → prop m id = None.
Proof.
  induction m as [|[k v] m IH]; [done|].
  rewrite fmap_cons, not_elem_of_cons. simpl. intros [Hne Hnot].
  rewrite bool_decide_eq_false_2 by done. by apply IH.
Qed.

(** X10. For an expense whose split does not hold the user, the net
    change of the transaction row does not depend on the amount or on
    the size of the split (the share is computed and not used): it is
    what the user paid, read with [|| 0], when the user is among the
    payers; otherwise it is [0], unless the user's id names a member of
    [Object.prototype], in which case the row shows [NaN]. *)
Theorem netChange_not_sharing (myId : string) (exp : Expense) :
  myId ∉ e_splitBetween exp →
  (∀ v, prop (e_paidBy exp) myId = Some v →
        netChange myId exp = JS.or_zero (Some v)) ∧
  (myId ∉ (e_paidBy exp).*1 → JS.inherited myId = false → netChange myId exp = 0) ∧
  (myId ∉ (e_paidBy exp).*1 → JS.inherited myId = true → netChange myId exp = nan).
Proof.
  intros Hsplit. unfold netChange. rewrite bool_decide_eq_false_2 by done.
  split; [|split].
  - intros v ->. apply sub_zero_r.
  - intros Hpaid ->. rewrite prop_None by done. apply sub_zero_r.
  - intros Hpaid ->. by rewrite prop_None.
Qed.

Lemma netChange_not_sharing_witness :
  netChange "A" (expense 0 [("B", 0)] []) = 0.
Proof.
  apply (proj1 (proj2 (netChange_not_sharing "A" (expense 0 [("B", 0)] [])
                         (not_elem_of_nil "A")))).
  - simpl. intros [[=]|[]%elem_of_nil]%elem_of_cons.
  - reflexivity.
Defined.

(** ** Expenses between other people, and the order of payers *)

Section EngineFrame.

Variable me : string.

Lemma adjustments_singleton (id : string) (exp : Expense) :
  adjustments me id [exp] = expenseAdjustments me id exp.
Proof. unfold adjustments. simpl. apply app_nil_r. Qed.

Lemma forExpense_third_party (bals : gmap string float) (exp : Expense) :
  me ∉ (e_paidBy exp).*1 → me ∉ e_splitBetween exp → forExpense me bals exp = bals.
Proof.
  intros Hpaid Hsplit. apply map_eq. intros id.
  destruct (decide (id = "__proto__")) as [->|Hid]; [apply forExpense_proto|].
  rewrite forExpense_lookup, <- adjustments_singleton by done.
  destruct (adjustments me id [exp]) as [|a l] eqn:Hadj; [done|].
  assert (adjustments me id [exp] ≠ []) as Hne by (by rewrite Hadj).
  apply adjustments_nonempty in Hne
    as [_ [(e & ->%list_elem_of_singleton & _ & ?)|(e & ->%list_elem_of_singleton & _ & ?)]];
    done.
Qed.

(** The adjustments of a pair depend on the expense through its amount
    and its split only. *)
Lemma pairAdjustments_ext (id : string) (exp exp' : Expense) (consumerId : string)
    (payer : string * float) :
  e_amount exp = e_amount exp' → e_splitBetween exp = e_splitBetween exp' →
  pairAdjustments me id exp consumerId payer = pairAdjustments me id exp' consumerId payer.
Proof. unfold pairAdjustments. by intros -> ->. Qed.

(** Among payers with distinct keys at most one pair reaches a given
    balance for a given consumer. *)
Lemma pairAdjustments_at_most_one (id : string) (exp : Expense) (consumerId : string)
    (payers : list (string * float)) :
  NoDup payers.*1 →
  (length (payers ≫= pairAdjustments me id exp consumerId) ≤ 1)%nat.
Proof.
  set (k := if decide (consumerId = me) then id else me).
  assert (∀ p, p.1 ≠ k → pairAdjustments me id exp consumerId p = []) as Hother.
  { intros p Hp. unfold pairAdjustments, k in *.
    destruct (decide (consumerId = me));
      rewrite !bool_decide_eq_false_2 by naive_solver; done. }
  assert (∀ p, (length (pairAdjustments me id exp consumerId p) ≤ 1)%nat) as Hone.
  { intros p. unfold pairAdjustments.
    destruct (decide (consumerId = me)).
    - rewrite (bool_decide_eq_false_2 (_ ∧ consumerId ≠ me ∧ _)) by naive_solver.
      simpl. case_bool_decide; simpl; lia.
    - rewrite (bool_decide_eq_false_2 (consumerId = me ∧ _)) by naive_solver.
      rewrite app_nil_r. case_bool_decide; simpl; lia. }
  induction payers as [|p payers IH]; [simpl; lia|].
  rewrite fmap_cons, NoDup_cons, bind_cons, length_app. intros [Hp Hnd].
  destruct (decide (p.1 = k)) as [Hk|Hk].
  - assert (payers ≫= pairAdjustments me id exp consumerId = []) as ->.
    { clear IH Hnd. induction payers as [|q payers IH]; [done|].
      rewrite fmap_cons, not_elem_of_cons in Hp. destruct Hp as [Hq Hp].
      rewrite bind_cons, Hother by congruence. by apply IH. }
    simpl. specialize (Hone p). lia.
  - rewrite Hother by done. simpl. by apply IH.
Qed.

Lemma short_Permutation_eq {A} (l l' : list A) :
  (length l ≤ 1)%nat → l ≡ₚ l' → l = l'.
Proof.
  destruct l as [|a [|b l]]; simpl; [| |lia]; intros _ Hperm.
  - by apply Permutation_nil_l in Hperm.
  - by apply Permutation_singleton_l in Hperm.
Qed.

End EngineFrame.

(** X11. An expense the acting user neither paid into nor shares
    changes no balance: the engine returns for a list with such an
    expense what it returns for the list without it. *)
Theorem third_party_expense_ignored (friends : list Friend) (u : Profile)
    (before after : list Expense) (exp : Expense) :
  p_id u ∉ (e_paidBy exp).*1 → p_id u ∉ e_splitBetween exp →
  balances friends (Some u) (before ++ exp :: after)
  = balances friends (Some u) (before ++ after).
Proof.
  intros Hpaid Hsplit. unfold balances, accumulateAll.
  rewrite !foldl_app. simpl. by rewrite forExpense_third_party.
Qed.

Lemma third_party_expense_ignored_witness :
  balances [friend "A" true; friend "B" false; friend "C" false] (Some (profile "A"))
    ([] ++ expense 90 [("B", 90)] ["B"; "C"] :: [])
  = balances [friend "A" true; friend "B" false; friend "C" false] (Some (profile "A"))
      ([] ++ []).
Proof.
  apply third_party_expense_ignored; simpl.
  - intros [[=]|[]%elem_of_nil]%elem_of_cons.
  - intros [[=]|[[=]|[]%elem_of_nil]%elem_of_cons]%elem_of_cons.
Defined.

(** X12. With distinct payer ids, the order in which the entries of
    [paidBy] are enumerated does not matter: two expenses with the same
    amount and split whose payer entries are permutations of each
    other change the balances in the same way. *)
Theorem paidBy_order_irrelevant (me : string) (bals : gmap string float)
    (exp exp' : Expense) :
  e_amount exp = e_amount exp' →
  e_splitBetween exp = e_splitBetween exp' →
  e_paidBy exp ≡ₚ e_paidBy exp' →
  NoDup (e_paidBy exp).*1 →
  forExpense me bals exp = forExpense me bals exp'.
Proof.
  intros Hamount Hsplit Hperm Hnd. apply map_eq. intros id.
  destruct (decide (id = "__proto__")) as [->|Hid]; [by rewrite !forExpense_proto|].
  rewrite !forExpense_lookup by done. f_equal. unfold expenseAdjustments.
  assert (∀ c, e_paidBy exp ≫= pairAdjustments me id exp c
               = e_paidBy exp' ≫= pairAdjustments me id exp' c) as Hinner.
  { intros c. apply short_Permutation_eq; [by apply pairAdjustments_at_most_one|].
    rewrite Hperm. clear Hperm Hnd.
    induction (e_paidBy exp') as [|p payers IH]; [done|].
    by rewrite !bind_cons, IH, (pairAdjustments_ext me id exp exp' c p). }
  rewrite <- Hsplit. generalize (e_splitBetween exp). intros split.
  induction split as [|c split IH]; [done|].
  by rewrite !bind_cons, IH, Hinner.
Qed.

Lemma paidBy_order_irrelevant_witness :
  forExpense "A" ∅ (expense 300 [("A", 100); ("B", 200)] ["A"; "B"; "C"])
  = forExpense "A" ∅ (expense 300 [("B", 200); ("A", 100)] ["A"; "B"; "C"]).
Proof.
  apply paidBy_order_irrelevant; [reflexivity | reflexivity | apply perm_swap |].
  simpl. apply NoDup_cons. split; [|apply NoDup_singleton].
  intros [=]%list_elem_of_singleton.
Defined.

(** ** From the form to the stored record and back *)

Lemma sub_diag_not_finite (x : float) :
  PrimFloat.is_finite x = false →
  PrimFloat.ltb (PrimFloat.abs (x - x)) JS.cent = false.
Proof.
  unfold PrimFloat.is_finite, PrimFloat.is_infinity.
  rewrite is_nan_Prim2SF, FloatAxioms.eqb_spec, ltb_spec, !abs_spec, sub_spec.
  change (Prim2SF infinity) with (S754_infinity false).
  destruct (Prim2SF x) as [s|s| |s m e]; simpl; try done.
  - by destruct s.
  - unfold SFeqb at 1 2. unfold SFcompare.
    rewrite Z.compare_refl, Pos.compare_cont_refl. by destruct s.
Qed.

(** X13. Storing a draft and reading it back returns its amount and
    its split.  The payers come back as drafted when the mapping form
    was stored.  A single payer stored in the scalar form comes back as
    having paid the whole amount, which is within 0.01 of what was
    drafted; if that payer's id is ["__proto__"], no payer comes back.
    So the payer ids come back in their order whenever ["__proto__"]
    is not the single one. *)
Theorem encode_decode (u : Profile) (now : string) (d : Draft) (p : Payload)
    (e : StoredExpense) :
  handleAddExpense (Some u) now d = Some p →
  s_amount e = pl_amount p →
  s_paid_by e = paid_by p →
  s_split_between e = SplitArray (split_between p) →
  e_amount (formatExpense e) = d_amount d ∧
  e_splitBetween (formatExpense e) = d_splitBetween d ∧
  (e_paidBy (formatExpense e) = d_paidBy d ∨
   ∃ id v, d_paidBy d = [(id, v)] ∧
           PrimFloat.ltb (PrimFloat.abs (v - d_amount d)) JS.cent = true ∧
           e_paidBy (formatExpense e)
           = if bool_decide (id = "__proto__") then [] else [(id, d_amount d)]) ∧
  ((d_paidBy d).*1 ≠ ["__proto__"] →
   (e_paidBy (formatExpense e)).*1 = (d_paidBy d).*1).
Proof.
  intros [= <-] Hamount Hpaid Hsplit. simpl in *.
  unfold formatExpense, paidByMap; simpl. rewrite Hamount, Hpaid, Hsplit. simpl.
  split; [done|]. split; [done|]. unfold paidByPayload.
  destruct (d_paidBy d) as [|[k v] [|kv rest]] eqn:Hd; simpl; [by auto| |by auto].
  unfold paidInFull. rewrite prop_single.
  destruct (PrimFloat.ltb _ _) eqn:Hlt; [|by auto].
  unfold setProp. split.
  - right. exists k, v. split; [done|]. split; [done|]. by case_bool_decide.
  - intros Hkey. rewrite bool_decide_eq_false_2 by congruence. done.
Qed.

Lemma encode_decode_witness :
  e_paidBy (formatExpense (stored 300 (PaidByString "u1") (SplitArray ["u1"; "u2"])))
  = [("u1", 300)].
Proof.
  destruct (encode_decode (profile "u1") "t"
              (draft 300 [("u1", 0x1.2bfeb851eb852p+8)] ["u1"; "u2"])
              {| description := "d"; pl_amount := 300; paid_by := PaidByString "u1";
                 split_between := ["u1"; "u2"]; category := other; date := "t";
                 created_by := "u1" |}
              (stored 300 (PaidByString "u1") (SplitArray ["u1"; "u2"])))
    as (_ & _ & [Hsame|(id & v & Hd & _ & Hback)] & _);
    [vm_compute; reflexivity | reflexivity | reflexivity | reflexivity | | ].
  - discriminate Hsame.
  - injection Hd as <- _. exact Hback.
Defined.

Section FormFacts.

Variable parseFloat : string → float.

Lemma setOwn_keys {A} (m : list (string * A)) (k : string) (v : A) :
  (setOwn m k v).*1 = if bool_decide (k ∈ m.*1) then m.*1 else m.*1 ++ [k].
Proof.
  induction m as [|[k0 x] m IH]; [done|].
  cbn [setOwn]. rewrite (fmap_cons fst). cbn [fst].
  destruct (decide (k0 = k)) as [->|Hk].
  - rewrite !bool_decide_eq_true_2; [done|left|done].
  - rewrite (bool_decide_eq_false_2 (k0 = k)) by done.
    rewrite fmap_cons, IH. cbn [fst].
    destruct (decide (k ∈ m.*1)) as [Hin|Hin].
    + rewrite !bool_decide_eq_true_2; [done|by right|done].
    + rewrite !bool_decide_eq_false_2; [done| |done].
      rewrite not_elem_of_cons. split; [congruence|done].
Qed.

Lemma setProp_keys {A} (m : list (string * A)) (k : string) (v : A) :
  (setProp m k v).*1
  = if bool_decide (k = "__proto__") || bool_decide (k ∈ m.*1)
    then m.*1 else m.*1 ++ [k].
Proof.
  unfold setProp. case_bool_decide; [done|]. apply setOwn_keys.
Qed.

Lemma setProp_NoDup {A} (m : list (string * A)) (k : string) (v : A) :
  NoDup m.*1 → NoDup (setProp m k v).*1.
Proof.
  intros Hnd. rewrite setProp_keys.
  case_bool_decide as Hproto; [done|]. case_bool_decide as Hk; [done|]. simpl.
  apply NoDup_app. split; [done|]. split; [|apply NoDup_singleton].
  by intros x Hx ->%list_elem_of_singleton.
Qed.

Lemma setProp_Forall {A} (P : A → Prop) (m : list (string * A)) (k : string) (v : A) :
  Forall (λ kv, P kv.2) m → P v → Forall (λ kv, P kv.2) (setProp m k v).
Proof.
  intros Hm Hv. unfold setProp. case_bool_decide; [done|].
  induction Hm as [|[k0 x] m Hx Hm IH]; simpl.
  - by repeat constructor.
  - case_bool_decide; constructor; done.
Qed.

Lemma setProp_sub {A} (m : list (string * A)) (k : string) (v : A) (ids : list string) :
  m.*1 ⊆ ids → k ∈ ids → (setProp m k v).*1 ⊆ ids.
Proof.
  intros Hm Hk. rewrite setProp_keys. destruct (_ || _); [done|].
  intros x [Hx| ->%list_elem_of_singleton]%elem_of_app; [by apply Hm|done].
Qed.


Lemma multiPaidBy_spec (multiPayers : list (string * string)) :
  NoDup (multiPaidBy parseFloat multiPayers).*1 ∧
  Forall (λ kv, PrimFloat.ltb 0 kv.2 = true) (multiPaidBy parseFloat multiPayers) ∧
  (multiPaidBy parseFloat multiPayers).*1 ⊆ multiPayers.*1.
Proof.
  unfold multiPaidBy.
  induction multiPayers as [|[id amt] l IH] using rev_ind; simpl.
  - split; [constructor|]. split; [constructor|done].
  - rewrite foldl_snoc. simpl. destruct IH as (Hnd & Hpos & Hsub).
    rewrite fmap_app. destruct (PrimFloat.ltb 0 (parseFloat amt)) eqn:Hlt.
    + split; [by apply setProp_NoDup|].
      split; [by apply (setProp_Forall (λ v, PrimFloat.ltb 0 v = true))|].
      apply setProp_sub; set_solver.
    + split; [done|]. split; [done|]. set_solver.
Qed.

(** X14. Whatever text the fields hold and however it parses, a draft
    that [handleSubmit] passes on has an amount that is neither zero
    nor [NaN], a description, a split with at least one person, payer
    ids that are pairwise distinct and payer amounts that are neither
    zero nor [NaN]. *)
Theorem handleSubmit_valid (st : FormState) (d : Draft) :
  handleSubmit parseFloat st = Some d →
  PrimFloat.is_zero (d_amount d) = false ∧
  PrimFloat.is_nan (d_amount d) = false ∧
  d_description d ≠ "" ∧
  d_splitBetween d ≠ [] ∧
  NoDup (d_paidBy d).*1 ∧
  Forall (λ kv, JS.truthy kv.2 = true) (d_paidBy d).
Proof.
  unfold handleSubmit.
  destruct (JS.truthy (parseFloat (fs_amount st))) eqn:Htruthy; [|done]. simpl.
  case_bool_decide as Hdesc; [done|]. case_bool_decide as Hlen; [done|]. simpl.
  intros [= <-]. simpl.
  unfold JS.truthy in Htruthy. apply negb_true_iff, orb_false_iff in Htruthy as [Hz Hn].
  repeat split; try done.
  - intros Hnil. by rewrite Hnil in Hlen.
  - destruct (fs_isMultiPayer st); [apply multiPaidBy_spec|].
    apply setProp_NoDup. constructor.
  - destruct (fs_isMultiPayer st).
    + eapply Forall_impl; [apply multiPaidBy_spec|].
      intros kv. apply positive_truthy.
    + apply (setProp_Forall (λ v, JS.truthy v = true)); [constructor|].
      unfold JS.truthy. by rewrite Hz, Hn.
Qed.

(** X15. A draft submitted in single-payer mode is stored with the
    bare payer id when its amount is finite, and with the one-entry
    mapping when the amount is infinite (the difference of the amount
    with itself is then [NaN] and the tolerance test fails).  When the
    payer id is ["__proto__"] the form's assignment stores nothing and
    the empty mapping is what gets stored. *)
Theorem single_payer_encoding (st : FormState) (d : Draft) (u : Profile)
    (now : string) :
  handleSubmit parseFloat st = Some d →
  fs_isMultiPayer st = false →
  paid_by <$> handleAddExpense (Some u) now d
  = Some (if bool_decide (fs_singlePayerId st = "__proto__")
          then PaidByObject []
          else if PrimFloat.is_finite (d_amount d)
               then PaidByString (fs_singlePayerId st)
               else PaidByObject [(fs_singlePayerId st, d_amount d)]).
Proof.
  unfold handleSubmit. intros Hsubmit Hsingle. rewrite Hsingle in Hsubmit.
  destruct (_ || _); [done|]. injection Hsubmit as <-. simpl.
  unfold paidByPayload, paidInFull, setProp; simpl.
  case_bool_decide as Hproto; [done|]. simpl.
  rewrite bool_decide_eq_true_2 by done.
  destruct (PrimFloat.is_finite _) eqn:Hfin.
  - by rewrite sub_diag.
  - by rewrite sub_diag_not_finite.
Qed.

End FormFacts.

Lemma handleSubmit_valid_witness :
  PrimFloat.is_zero 300 = false ∧ PrimFloat.is_nan 300 = false ∧
  "Dinner" ≠ "" ∧ ["A"; "B"] ≠ [] ∧
  NoDup [("A", 120); ("B", 180)].*1 ∧
  Forall (λ kv : string * float, JS.truthy kv.2 = true) [("A", 120); ("B", 180)].
Proof.
  apply (handleSubmit_valid parseSample
           (form "300" "Dinner" true "A" [("A", "120"); ("B", "180"); ("C", "")]
              ["A"; "B"])
           {| d_description := "Dinner"; d_amount := 300;
              d_paidBy := [("A", 120); ("B", 180)]; d_splitBetween := ["A"; "B"];
              d_category := other; d_createdBy := None |}).
  vm_compute. reflexivity.
Defined.

Lemma single_payer_encoding_witness :
  paid_by <$> handleAddExpense (Some (profile "A")) "t"
                {| d_description := "Dinner"; d_amount := 300;
                   d_paidBy := [("B", 300)]; d_splitBetween := ["A"; "B"];
                   d_category := other; d_createdBy := None |}
  = Some (PaidByString "B").
Proof.
  apply (single_payer_encoding parseSample
           (form "300" "Dinner" false "B" [] ["A"; "B"])
           {| d_description := "Dinner"; d_amount := 300;
              d_paidBy := [("B", 300)]; d_splitBetween := ["A"; "B"];
              d_category := other; d_createdBy := None |}
           (profile "A") "t");
    vm_compute; reflexivity.
Defined.

(** ** The split of the form *)

Lemma isFriend_spec (friends : list Friend) (id : string) :
  isFriend friends id = true ↔ id ∈ f_id <$> friends.
Proof.
  unfold isFriend. induction friends as [|f friends IH]; simpl.
  - split; [done|]. by intros ?%elem_of_nil.
  - rewrite orb_true_iff, IH, elem_of_cons, bool_decide_eq_true. naive_solver.
Qed.

Lemma elem_of_toggleSplit (id x : string) (prev : list string) :
  x ∈ toggleSplit id prev ↔ (x = id ∧ id ∉ prev) ∨ (x ≠ id ∧ x ∈ prev).
Proof.
  unfold toggleSplit. case_bool_decide as Hin.
  - rewrite list_elem_of_filter. naive_solver.
  - rewrite elem_of_app, list_elem_of_singleton.
    destruct (decide (x = id)); naive_solver.
Qed.

(** X16. Toggling an id flips its membership in the split and leaves
    the membership of every other id alone. *)
Theorem toggleSplit_member (id x : string) (prev : list string) :
  x ∈ toggleSplit id prev ↔ (x = id ∧ id ∉ prev) ∨ (x ≠ id ∧ x ∈ prev).
Proof. apply elem_of_toggleSplit. Qed.

Lemma toggleSplit_NoDup (id : string) (prev : list string) :
  NoDup prev → NoDup (toggleSplit id prev).
Proof.
  intros Hnd. unfold toggleSplit. case_bool_decide as Hin.
  - by apply NoDup_filter.
  - apply NoDup_app. split; [done|]. split; [|apply NoDup_singleton].
    by intros x Hx ->%list_elem_of_singleton.
Qed.

(** X17. Toggling the same id twice gives back the split: the very
    list when the id was not in it, and the same people, each once,
    when the split listed the id (it moves to the end). *)
Theorem toggleSplit_twice (id : string) (prev : list string) :
  (id ∉ prev → toggleSplit id (toggleSplit id prev) = prev) ∧
  (id ∈ prev → NoDup prev → toggleSplit id (toggleSplit id prev) ≡ₚ prev).
Proof.
  split.
  - intros Hnot. unfold toggleSplit at 2. rewrite bool_decide_eq_false_2 by done.
    unfold toggleSplit. rewrite bool_decide_eq_true_2
      by (apply elem_of_app; right; left).
    rewrite filter_app. simpl. rewrite filter_cons, decide_False by naive_solver.
    rewrite filter_nil, app_nil_r.
    clear -Hnot. induction prev as [|x prev IH]; [done|].
    apply not_elem_of_cons in Hnot as [Hx Hnot].
    rewrite filter_cons, decide_True by done. by rewrite IH.
  - intros Hin Hnd. apply NoDup_Permutation; [by do 2 apply toggleSplit_NoDup|done|].
    intros x. rewrite !elem_of_toggleSplit.
    destruct (decide (x = id)); naive_solver.
Qed.

Lemma toggleSplit_twice_witness :
  toggleSplit "B" (toggleSplit "B" ["A"; "C"]) = ["A"; "C"].
Proof.
  apply (proj1 (toggleSplit_twice "B" ["A"; "C"])).
  intros [[=]|[[=]|[]%elem_of_nil]%elem_of_cons]%elem_of_cons.
Defined.

(** X18. A split built in the form by hand never lists a person twice:
    it starts as the ids of the fetched Friend collection when the
    sheet opens, and any sequence of toggles keeps it free of
    duplicates. *)
Theorem form_split_NoDup (uid : string) (p : Profile)
    (reqs : option (list FriendRequest)) (friends : list Friend)
    (pendingList : list FriendRequest) (currentUser : Friend)
    (toggles : list string) :
  fetchFriends uid p reqs = Some (friends, pendingList) →
  NoDup (foldl (λ split id, toggleSplit id split)
           (fs_splitBetween (openForm friends currentUser)) toggles).
Proof.
  intros Hnd%fetched_NoDup. simpl.
  revert Hnd. generalize (f_id <$> friends).
  induction toggles as [|id toggles IH]; intros split Hnd; [done|].
  simpl. by apply IH, toggleSplit_NoDup.
Qed.

Lemma form_split_NoDup_witness :
  NoDup (foldl (λ split id, toggleSplit id split)
           (fs_splitBetween
              (openForm [asFriend (profile "A") true; asFriend (profile "B") false]
                 (friend "A" true)))
           ["B"; "A"; "B"]).
Proof.
  apply (form_split_NoDup "A" (profile "A") (Some [request "A" "B" accepted])
           _ []).
  vm_compute. reflexivity.
Defined.

(** ** Filling the form from an extraction result *)

Section MagicFacts.

Variable numberToString : float → string.

(** X19. After an extraction result was applied, every id of the split
    is an id of the Friend collection, and the split is empty only if
    the collection is: ids the service made up are dropped, and a
    missing, empty or wholly unknown list falls back to everyone. *)
Theorem magicSplit_friends (friends : list Friend) (currentUser : Friend)
    (result : MagicResult) (st : FormState) :
  let split := fs_splitBetween (handleMagicFill numberToString friends currentUser
                                  result st) in
  (∀ id, id ∈ split → id ∈ f_id <$> friends) ∧
  (split = [] → friends = []).
Proof.
  simpl. unfold magicSplit.
  assert (f_id <$> friends = [] → friends = []) as Hall by apply fmap_nil_inv.
  destruct (mr_involvedFriendIds result) as [[|i ids]|];
    [split; [done|exact Hall] | | split; [done|exact Hall]].
  destruct (filter _ (i :: ids)) as [|v valid] eqn:Hvalid;
    [split; [done|exact Hall]|].
  split; [|done]. intros id Hid. rewrite <- Hvalid in Hid.
  apply list_elem_of_filter in Hid as [Hid _]. by apply isFriend_spec.
Qed.



Lemma knownPayers_parsed (friends : list Friend) (ps : list MagicPayer) :
  omap (knownPayer friends) (parsed <$> ps)
  = (λ p, (mp_friendId p, Some (mp_amount p))) <$> validPayers friends ps.
Proof.
  unfold validPayers. induction ps as [|p ps IH]; [done|].
  rewrite fmap_cons, filter_cons. cbn [omap list_omap]. rewrite IH.
  unfold knownPayer at 1. simpl.
  destruct (isFriend friends (mp_friendId p)); by case_decide.
Qed.

Lemma fillMultiMap_parsed (m : list (string * string)) (ps : list MagicPayer) :
  fillMultiMap numberToString m ((λ p, (mp_friendId p, Some (mp_amount p))) <$> ps)
  = Some (foldl (λ m p, setProp m (mp_friendId p) (numberToString (mp_amount p))) m ps).
Proof. revert m. induction ps as [|p ps IH]; intros m; [done|]. apply IH. Qed.

(** On payers that carry both properties the two readings of step 3
    agree, and the run goes on. *)
Lemma magicPayers_parsed (friends : list Friend) (currentUser : Friend)
    (result : MagicResult) (ps : list MagicPayer) (st : FormState) :
  mr_payers result = Some ps →
  magicPayersParsed numberToString friends currentUser (Some (parsed <$> ps)) st
  = Completed (magicPayers numberToString friends currentUser result st).
Proof.
  intros Hps. unfold magicPayersParsed, magicPayers. rewrite Hps.
  destruct ps as [|p ps]; [done|]. rewrite fmap_cons.
  change (parsed p :: (parsed <$> ps)) with (parsed <$> p :: ps).
  rewrite knownPayers_parsed.
  destruct (validPayers friends (p :: ps)) as [|v1 [|v2 valid]]; [done|done|].
  change ((λ p, (mp_friendId p, Some (mp_amount p))) <$> v1 :: v2 :: valid)
    with ((mp_friendId v1, Some (mp_amount v1)) :: (mp_friendId v2, Some (mp_amount v2))
          :: ((λ p, (mp_friendId p, Some (mp_amount p))) <$> valid)).
  cbv iota beta.
  change ((mp_friendId v1, Some (mp_amount v1)) :: (mp_friendId v2, Some (mp_amount v2))
          :: ((λ p, (mp_friendId p, Some (mp_amount p))) <$> valid))
    with ((λ p, (mp_friendId p, Some (mp_amount p))) <$> v1 :: v2 :: valid).
  by rewrite fillMultiMap_parsed.
Qed.


End MagicFacts.

Lemma magicSplit_friends_witness :
  "B" ∈ f_id <$> [friend "A" true; friend "B" false].
Proof.
  apply (proj1 (magicSplit_friends showSample [friend "A" true; friend "B" false]
                  (friend "A" true) (magicResult 300 ["B"; "Z"] [("A", 300)])
                  (openForm [friend "A" true; friend "B" false] (friend "A" true)))).
  vm_compute. left.
Defined.

